(** * The sitewise-mcp-server launchers

    A shallow embedding of the two Node.js launcher scripts of the repository,

      - [Bin]: src/bin/sitewise-mcp-server.js
      - [Alt]: the second launcher (src/unnamed/part_001)

    Both scripts locate a Python interpreter, optionally run pip, parse a
    local .env file and supervise the server child.  The pure parts (string
    splitting, trimming, argument filtering) are Rocq functions.  The
    effectful parts run in a small writer/exception monad over a read-only
    [world] that fixes what the operating system answers. *)

From Stdlib Require Import ZArith NArith List Lia.
From Stdlib Require Import Strings.String Strings.Ascii.
From stdpp Require Import gmap list.

Local Open Scope list_scope.

(** ** JavaScript strings *)

(** A JavaScript string is a sequence of UTF-16 code units. *)
Abbreviation jsstring := (list N).

(** ASCII literals of the source. *)
Definition lit (s : string) : jsstring :=
  List.map N_of_ascii (list_ascii_of_string s).
Arguments lit s%_string.

Definition code_eq : N := 61.   (* '=' *)
Definition code_nl : N := 10.   (* '\n' *)
Definition code_dq : N := 34.   (* the double quote *)
Definition code_sq : N := 39.   (* the single quote *)

(** [String.prototype.split] with a one-character separator: the pieces
    between the occurrences of the separator, never an empty array. *)
Fixpoint split (sep : N) (s : jsstring) : list jsstring :=
  match s with
  | [] => [[]]
  | c :: r =>
      if N.eqb c sep then [] :: split sep r
      else match split sep r with
           | [] => [[c]]
           | piece :: pieces => (c :: piece) :: pieces
           end
  end.

(** WhiteSpace and LineTerminator code units of ECMAScript, the ones
    [String.prototype.trim] removes. *)
Definition is_space (c : N) : bool :=
  (N.leb 9 c && N.leb c 13) || N.eqb c 32 || N.eqb c 160 || N.eqb c 5760
  || (N.leb 8192 c && N.leb c 8202) || N.eqb c 8232 || N.eqb c 8233
  || N.eqb c 8239 || N.eqb c 8287 || N.eqb c 12288 || N.eqb c 65279.

Fixpoint trim_start (s : jsstring) : jsstring :=
  match s with
  | [] => []
  | c :: r => if is_space c then trim_start r else s
  end.

Definition trim_end (s : jsstring) : jsstring := rev (trim_start (rev s)).

Definition trim (s : jsstring) : jsstring := trim_end (trim_start s).

Definition is_quote (c : N) : bool := N.eqb c code_dq || N.eqb c code_sq.

(** Removes a quote character that ends the string (the second
    alternative of the regular expression of [Alt], line 123). *)
Fixpoint strip_last_quote (s : jsstring) : jsstring :=
  match s with
  | [] => []
  | [c] => if is_quote c then [] else [c]
  | c :: r => c :: strip_last_quote r
  end.

(** The [replace] of [Alt], line 123, whose global regular expression
    matches a single or double quote character at the start of the string or
    at its end: one quote character is removed at the start and one at the
    end, each when present; a match at the start consumes its character. *)
Definition strip_quotes (s : jsstring) : jsstring :=
  match s with
  | [] => []
  | c :: r => if is_quote c then strip_last_quote r else strip_last_quote s
  end.

(** A JavaScript value used as a condition; [None] is [undefined]. *)
Definition truthy (o : option jsstring) : bool :=
  match o with
  | Some (_ :: _) => true
  | _ => false
  end.

(** ** The two launchers *)

Inductive variant := Bin | Alt.

(** ** Parsing the .env file *)

(** [env[k] = x] on an object literal.  [__proto__] is the accessor of
    [Object.prototype]: assigning a string to it creates no property. *)
Definition set_property (env : gmap jsstring jsstring) (k x : jsstring)
  : gmap jsstring jsstring :=
  if decide (k = lit "__proto__") then env else <[k := x]> env.

(** The right-hand side of the assignment: [value.trim()] in [Bin],
    [value.trim().replace(...)] with the quote-stripping expression in
    [Alt]. *)
Definition env_value (v : variant) (value : jsstring) : jsstring :=
  match v with
  | Bin => trim value
  | Alt => strip_quotes (trim value)
  end.

(** The body of the [forEach] callback of [loadEnvFile]:
    [const [key, value] = line.split('='); if (key && value) ...].
    Destructuring reads the elements 0 and 1 of the array; a missing element
    is [undefined], and [undefined] and the empty string are falsy. *)
Definition env_line (v : variant) (env : gmap jsstring jsstring)
    (line : jsstring) : gmap jsstring jsstring :=
  let parts := split code_eq line in
  match parts !! 0%nat, parts !! 1%nat with
  | Some key, Some value =>
      if truthy (Some key) && truthy (Some value)
      then set_property env (trim key) (env_value v value)
      else env
  | _, _ => env
  end.

(** [envContent.split('\n').forEach(...)] starting from [env = {}]. *)
Definition parse_env (v : variant) (content : jsstring)
  : gmap jsstring jsstring :=
  fold_left (env_line v) (split code_nl content) ∅.

(** ** The world of one run *)

(** The command line of a child: the first two arguments of [spawn]. *)
Record command := Command { file : jsstring; args : list jsstring }.

(** The [ChildProcess] objects of the scripts, by the names of the constants
    that hold them: [python] and [pythonAlt] in [checkPython], [pip] in
    [installDependencies], [server] in [runServer]. *)
Inductive handle := python | pythonAlt | pip | server.

(** What a spawned child does.  Either it runs, and Node emits 'close'
    with its exit code ([None] is [null]: the child was ended by a signal).
    Or the operating system cannot start it: Node then emits 'error' with
    the message and, in the same turn of the event loop, 'close' with the
    negative error number as code ([errno] is its absolute value, 2 for
    ENOENT on Linux). *)
Inductive outcome :=
| Closed (code : option Z)
| Failed (msg : jsstring) (errno : positive).

(** The code of the 'close' event of a child that could not be started. *)
Definition failure_code (errno : positive) : option Z := Some (Z.neg errno).

Inductive signal := SIGINT | SIGTERM.

Inductive mode := Pipe | Inherit.

(** The options of [spawn] the scripts use: [stdio] (three pipes when it is
    left out) and [env] ([None] when it is left out: the child inherits
    [process.env]). *)
Record spawn_options := Options {
  stdio : mode * mode * mode;
  env : option (gmap jsstring jsstring)
}.

Record world := World {
  argv : list jsstring;                    (* process.argv *)
  dirname : jsstring;                      (* __dirname *)
  cwd : jsstring;                          (* process.cwd() *)
  process_env : gmap jsstring jsstring;    (* process.env *)
  path_join : jsstring -> jsstring -> jsstring;   (* path.join *)
  path_dirname : jsstring -> jsstring;            (* path.dirname *)
  existsSync : jsstring -> bool;                  (* fs.existsSync *)
  (* fs.readFileSync(p, 'utf8'): the content, or the message of the
     exception it throws *)
  readFileSync : jsstring -> jsstring + jsstring;
  (* what the child held by a handle does when started with a command
     line and options *)
  child : handle -> command -> spawn_options -> outcome;
  (* the signals the launcher receives while the server child runs *)
  signals : list signal
}.

(** ** Errors, messages and observable events *)

(** The [Error] objects of the two scripts; the texts differ between the
    scripts and are kept abstract. *)
Inductive error :=
| PythonNotFound                        (* 'Python no encontrado' *)
| ServerFileMissing (p : jsstring)      (* server.py is absent *)
| RequirementsMissing (p : jsstring)    (* requirements.txt is absent *)
| InstallFailed (code : option Z)       (* pip closed with a code other than 0 *)
| PipError (msg : jsstring)             (* pip could not be started *)
| ServerExited (code : option Z)        (* server closed with a code other than 0 *)
| ServerError (msg : jsstring)          (* server could not be started *)
| FsError (msg : jsstring)              (* thrown by readFileSync *)
| UnhandledError (msg : jsstring).      (* 'error' emitted without a listener *)

Inductive message :=
| Banner | Rule | CheckingPython
| PythonFound (cmd : jsstring)
| Installing | Installed
| Starting | ServerClosed | Closing
| EnvLoaded
| EnvReadError (msg : jsstring)
| ErrorLine (e : error)
| HelpLine (n : nat).

Inductive stream := Stdout | Stderr.

Inductive event :=
| Spawn (h : handle) (c : command) (o : spawn_options)
| ChildClose (h : handle) (code : option Z)
| ChildError (h : handle) (msg : jsstring)
| Signal (s : signal)
| Kill (h : handle) (s : signal)
| Write (s : stream) (m : message).

(** ** The monad of the launcher *)

(** How a piece of the script ends: with a value (a fulfilled promise), with
    a thrown exception (a rejected promise), in [process.exit], or in an
    'error' event that no listener takes, which Node raises outside every
    [try] of the script. *)
Inductive completion (A : Type) :=
| Normal (a : A)
| Throw (e : error)
| Exit (code : Z)
| Uncaught (e : error).
Arguments Normal {A} a.
Arguments Throw {A} e.
Arguments Exit {A} code.
Arguments Uncaught {A} e.

(** A computation: the events it produces, in order, and how it ends. *)
Definition M (A : Type) : Type := list event * completion A.

Definition ret {A} (a : A) : M A := ([], Normal a).

Definition bind {A B} (m : M A) (f : A -> M B) : M B :=
  match m with
  | (t, Normal a) => let (t', c) := f a in (t ++ t', c)
  | (t, Throw e) => (t, Throw e)
  | (t, Exit code) => (t, Exit code)
  | (t, Uncaught e) => (t, Uncaught e)
  end.

Notation "'let!' x ':=' m 'in' k" := (bind m (fun x => k))
  (at level 10, x name, m at level 100, k at level 200,
   format "'[v' 'let!'  x  ':='  m  'in' '/' k ']'").
Notation "'exec' m ; k" := (bind m (fun _ => k))
  (at level 10, m at level 100, k at level 200,
   format "'[v' 'exec'  m ; '/' k ']'").

Definition emit (e : event) : M unit := ([e], Normal tt).
Definition throw {A} (e : error) : M A := ([], Throw e).
Definition uncaught {A} (e : error) : M A := ([], Uncaught e).
Definition process_exit {A} (code : Z) : M A := ([], Exit code).

(** [try { body } catch (error) { handler }]. *)
Definition try_catch {A} (body : M A) (handler : error -> M A) : M A :=
  match body with
  | (t, Throw e) => let (t', c) := handler e in (t ++ t', c)
  | other => other
  end.

Fixpoint for_each {A} (f : A -> M unit) (l : list A) : M unit :=
  match l with
  | [] => ret tt
  | x :: r => exec f x; for_each f r
  end.

Definition trace {A} (m : M A) : list event := fst m.
Definition result {A} (m : M A) : completion A := snd m.

(** A promise settles once: of two settlements the first stands.  The end
    of the process is no settlement and always takes effect. *)
Definition settle_once {A} (first second : completion A) : completion A :=
  match first, second with
  | (Normal _ | Throw _), (Exit _ | Uncaught _) => second
  | _, _ => first
  end.

(** Two listeners of one child that are called one after the other before
    the promise is looked at. *)
Definition both_listeners {A} (first second : M A) : M A :=
  match first with
  | (t, Exit code) => (t, Exit code)
  | (t, Uncaught e) => (t, Uncaught e)
  | (t, c) => (t ++ trace second, settle_once c (result second))
  end.

(** ** The scripts *)

Section Launcher.

Variable w : world.

(** [log]: [console.log] in [Bin] (lines 23-29; the colour codes are
    cosmetic and left out), [console.error] in [Alt] (lines 8-10). *)
Definition log_stream (v : variant) : stream :=
  match v with Bin => Stdout | Alt => Stderr end.

Definition log (v : variant) (m : message) : M unit :=
  emit (Write (log_stream v) m).

(** [code === 0]. *)
Definition is_zero (code : option Z) : bool :=
  match code with
  | Some 0%Z => true
  | _ => false
  end.

(** [Array.prototype.includes] on strings. *)
Definition includes (l : list jsstring) (x : jsstring) : bool :=
  bool_decide (x ∈ l).

(** [const h = spawn(file, args, options)] followed by the registration of
    the listeners on [h], for listeners that settle the promise at once.
    [while_running] is what the launcher does between the start of the child
    and its 'close' event.  A child that cannot be started emits 'error' and
    then 'close': both listeners are called, in this order.  Without an
    'error' listener Node throws the error out of the event loop instead, and
    no 'close' follows. *)
Definition spawn {A} (h : handle) (c : command) (o : spawn_options)
    (while_running : M unit)
    (on_close : option Z -> M A) (on_error : option (jsstring -> M A)) : M A :=
  exec emit (Spawn h c o);
  match child w h c o with
  | Closed code =>
      exec while_running;
      exec emit (ChildClose h code);
      on_close code
  | Failed msg errno =>
      exec emit (ChildError h msg);
      match on_error with
      | Some listener =>
          both_listeners (listener msg)
            (exec emit (ChildClose h (failure_code errno));
             on_close (failure_code errno))
      | None => uncaught (UnhandledError msg)
      end
  end.

Definition version_query (name : jsstring) : command :=
  Command name [lit "--version"].

Definition pipes : mode * mode * mode := (Pipe, Pipe, Pipe).
Definition inherit : mode * mode * mode := (Inherit, Inherit, Inherit).

(** The 'close' listener of a fallback, [Bin] lines 41-47 and 54-60. *)
Definition fallback_closed (altCode : option Z) : M jsstring :=
  if is_zero altCode then ret (lit "python") else throw PythonNotFound.

(** [checkPython], [Bin] lines 31-66 and [Alt] lines 12-45.  The two
    scripts differ in the text of the error only ([Alt] spells out the
    default stdio).

    When python3 runs, its 'close' listener (lines 35-49) resolves, or
    starts a fallback that has a 'close' listener and no 'error' listener.

    When python3 cannot be started, both listeners of [python] are called in
    the same turn.  The 'error' listener (lines 51-64) starts a fallback with
    both listeners; the 'close' listener, called with the failure code,
    starts a second fallback with a 'close' listener only.  Two children
    [python --version] are then running.  If they run, the first to close
    settles the promise and [main] goes on; the 'close' of the other finds
    the promise settled, does nothing, comes at no determined time and is
    not recorded.  If they cannot be started either, the first one rejects
    the promise through its 'error' listener, and the 'error' of the second,
    which has no listener, is thrown in the same turn, before the rejection
    reaches the [catch] of [main]. *)
Definition checkPython : M jsstring :=
  let primary := version_query (lit "python3") in
  let fallback := version_query (lit "python") in
  let options := Options pipes None in
  exec emit (Spawn python primary options);
  match child w python primary options with
  | Closed code =>
      exec emit (ChildClose python code);
      if is_zero code then ret (lit "python3")
      else spawn pythonAlt fallback options (ret tt) fallback_closed None
  | Failed msg errno =>
      exec emit (ChildError python msg);
      exec emit (Spawn pythonAlt fallback options);
      exec emit (ChildClose python (failure_code errno));
      exec emit (Spawn pythonAlt fallback options);
      match child w pythonAlt fallback options with
      | Closed altCode =>
          exec emit (ChildClose pythonAlt altCode);
          fallback_closed altCode
      | Failed msg' errno' =>
          exec emit (ChildError pythonAlt msg');
          exec emit (ChildClose pythonAlt (failure_code errno'));
          exec emit (ChildError pythonAlt msg');
          uncaught (UnhandledError msg')
      end
  end.

Definition pip_install (pythonCmd requirementsPath : jsstring) : command :=
  Command pythonCmd
    [lit "-m"; lit "pip"; lit "install"; lit "-r"; requirementsPath].

(** [installDependencies], [Bin] lines 68-96 and [Alt] lines 47-73.
    [Bin] logs before it looks for the manifest, [Alt] after. *)
Definition installDependencies (v : variant) (pythonCmd srcDir : jsstring)
  : M unit :=
  exec (match v with Bin => log v Installing | Alt => ret tt end);
  let requirementsPath := path_join w srcDir (lit "requirements.txt") in
  if negb (existsSync w requirementsPath)
  then throw (RequirementsMissing requirementsPath)
  else
    exec (match v with Bin => ret tt | Alt => log v Installing end);
    spawn pip (pip_install pythonCmd requirementsPath)
      (Options (match v with Bin => inherit | Alt => (Pipe, Pipe, Inherit) end)
               None)
      (ret tt)
      (fun code =>
         if is_zero code
         then exec (match v with Bin => log v Installed | Alt => ret tt end);
              ret tt
         else throw (InstallFailed code))
      (Some (fun msg => throw (PipError msg))).

(** [loadEnvFile], [Bin] lines 137-153 and [Alt] lines 113-132.  Only [Alt]
    wraps the read in [try]/[catch]. *)
Definition loadEnvFile (v : variant) : M (gmap jsstring jsstring) :=
  let envPath := path_join w (cwd w) (lit ".env") in
  if existsSync w envPath then
    match readFileSync w envPath with
    | inl envContent =>
        let env := parse_env v envContent in
        exec (match v with Bin => log v EnvLoaded | Alt => ret tt end);
        ret env
    | inr msg =>
        match v with
        | Bin => throw (FsError msg)
        | Alt => exec log v (EnvReadError msg); ret ∅
        end
    end
  else ret ∅.

(** The [env] option of the server: [{...process.env, ...loadEnvFile()}],
    and in [Alt] the property PYTHONUNBUFFERED after the two spreads. *)
Definition server_env (v : variant) (overlay : gmap jsstring jsstring)
  : gmap jsstring jsstring :=
  match v with
  | Bin => overlay ∪ process_env w
  | Alt => <[lit "PYTHONUNBUFFERED" := lit "1"]> (overlay ∪ process_env w)
  end.

(** The argument array of the server: [[serverPath, ...args]] in [Bin],
    [[serverPath]] in [Alt], whose [runServer] has no third parameter. *)
Definition server_command (v : variant) (pythonCmd serverPath : jsstring)
    (args : list jsstring) : command :=
  match v with
  | Bin => Command pythonCmd (serverPath :: args)
  | Alt => Command pythonCmd [serverPath]
  end.

(** The listeners [process.on('SIGINT', ...)] and [process.on('SIGTERM',
    ...)]: each forwards its own signal with [server.kill]; [Bin] logs
    first. *)
Definition on_signal (v : variant) (s : signal) : M unit :=
  exec emit (Signal s);
  exec (match v with Bin => log v Closing | Alt => ret tt end);
  emit (Kill server s).

(** [runServer], [Bin] lines 98-135 and [Alt] lines 75-111. *)
Definition runServer (v : variant) (pythonCmd serverPath : jsstring)
    (args : list jsstring) : M unit :=
  exec log v Starting;
  let! overlay := loadEnvFile v in
  spawn server (server_command v pythonCmd serverPath args)
    (Options (match v with Bin => pipes | Alt => inherit end)
             (Some (server_env v overlay)))
    (for_each (on_signal v) (signals w))
    (fun code =>
       if is_zero code
       then exec (match v with Bin => log v ServerClosed | Alt => ret tt end);
            ret tt
       else throw (ServerExited code))
    (Some (fun msg => throw (ServerError msg))).

Definition packageDir : jsstring := path_dirname w (dirname w).
Definition srcDir : jsstring := path_join w packageDir (lit "src").
Definition serverPath : jsstring := path_join w srcDir (lit "server.py").

(** [process.argv.slice(2)]. *)
Definition cli_args : list jsstring := drop 2 (argv w).

Definition shouldInstall : bool :=
  includes cli_args (lit "--install") || includes cli_args (lit "-i").

(** [args.filter(arg => !['--install', '-i'].includes(arg))]. *)
Definition filteredArgs : list jsstring :=
  List.filter (fun arg => negb (includes [lit "--install"; lit "-i"] arg))
    cli_args.

(** The [try] block of [main], [Bin] lines 157-186 and [Alt] lines
    136-158. *)
Definition main_body (v : variant) : M unit :=
  exec (match v with
        | Bin => exec log v Banner; log v Rule
        | Alt => ret tt
        end);
  if negb (existsSync w serverPath)
  then throw (ServerFileMissing serverPath)
  else
    exec (match v with Bin => log v CheckingPython | Alt => ret tt end);
    let! pythonCmd := checkPython in
    exec (match v with Bin => log v (PythonFound pythonCmd) | Alt => ret tt end);
    exec (if shouldInstall then installDependencies v pythonCmd srcDir
          else ret tt);
    runServer v pythonCmd serverPath
      (match v with Bin => filteredArgs | Alt => [] end).

(** [main]: the [catch] clause logs the message and calls
    [process.exit(1)]. *)
Definition main (v : variant) : M unit :=
  try_catch (main_body v)
    (fun e => exec log v (ErrorLine e); process_exit 1).

(** The help block at the end of both scripts tests the whole of
    [process.argv]. *)
Definition help_requested : bool :=
  includes (argv w) (lit "--help") || includes (argv w) (lit "-h").

(** The usage text: 19 calls of [log] in [Bin] (lines 196-214), three of
    [console.error] in [Alt] (lines 168-170). *)
Definition usage (v : variant) : M unit :=
  for_each (fun n => log v (HelpLine n))
    (seq 0 (match v with Bin => 19 | Alt => 3 end)).

(** The script from its first statement to its last: the help block, then
    the call of [main]. *)
Definition launcher (v : variant) : M unit :=
  if help_requested then exec usage v; process_exit 0
  else main v.

End Launcher.

(** The status the process ends with.  A script that runs to its end
    leaves nothing pending and Node exits with 0.  An 'error' event without
    listener is an uncaught exception: Node prints it and exits with 1.  The
    script itself never ends in a rejection, [main] catches them all. *)
Definition exit_status (c : completion unit) : option Z :=
  match c with
  | Normal _ => Some 0%Z
  | Exit code => Some code
  | Uncaught _ => Some 1%Z
  | Throw _ => None
  end.

(** ** Concrete worlds *)

(** A POSIX installation of the package under /pkg, started in /work:
    [extra] are the command-line arguments, [present] the paths that exist,
    [dotenv] the content of every readable file, [children] the behaviour
    of the children and [sigs] the signals sent to the launcher. *)
Definition posix_world (extra present : list jsstring) (dotenv : jsstring)
    (children : handle -> outcome) (sigs : list signal) : world :=
  {| argv := lit "node" :: lit "/pkg/bin/sitewise-mcp-server.js" :: extra;
     dirname := lit "/pkg/bin";
     cwd := lit "/work";
     process_env := {[ lit "PATH" := lit "/usr/bin" ]};
     path_join := fun a b => a ++ lit "/" ++ b;
     path_dirname := fun _ => lit "/pkg";
     existsSync := fun p => includes present p;
     readFileSync := fun _ => inl dotenv;
     child := fun h _ _ => children h;
     signals := sigs |}.

Definition server_py : jsstring := lit "/pkg/src/server.py".
Definition requirements_txt : jsstring := lit "/pkg/src/requirements.txt".
Definition dotenv_path : jsstring := lit "/work/.env".

(** Every child runs and closes with code 0. *)
Definition all_fine (h : handle) : outcome := Closed (Some 0%Z).

(** ** Lines of the .env file *)

(** A line on which the callback of [loadEnvFile] finds no key or no
    value: it has no '=' at all, or nothing before its first '=', or nothing
    after it.  Nothing is the empty string: the callback tests key and value
    before it trims them, so white space counts as a key and as a value. *)
Inductive malformed : jsstring -> Prop :=
| malformed_no_equals line : code_eq ∉ line -> malformed line
| malformed_no_key rest : malformed (code_eq :: rest)
| malformed_no_value key : code_eq ∉ key -> malformed (key ++ [code_eq]).

(** The text before the first '=' of a line (the whole line when it has
    none), and the text after it. *)
Fixpoint until_equals (s : jsstring) : jsstring :=
  match s with
  | [] => []
  | c :: r => if N.eqb c code_eq then [] else c :: until_equals r
  end.

Fixpoint after_equals (s : jsstring) : option jsstring :=
  match s with
  | [] => None
  | c :: r => if N.eqb c code_eq then Some r else after_equals r
  end.



(** The text between the first and the second '=' of a line. *)
Definition between_equals (line : jsstring) : jsstring :=
  match after_equals line with
  | Some rest => until_equals rest
  | None => []
  end.

(** The characters the right-hand side of the assignment removes at the
    ends of a value: white space, and in [Alt] the two quote characters. *)
Definition end_removed (v : variant) (c : N) : bool :=
  is_space c || match v with Bin => false | Alt => is_quote c end.

(** ** Events of the signal listeners *)

(** The events of one run of a signal listener of [runServer]. *)
Definition signal_events (v : variant) (s : signal) : list event :=
  Signal s
  :: match v with Bin => [Write Stdout Closing] | Alt => [] end
  ++ [Kill server s].


(** ** Observations on a trace *)

Definition handle_eqb (a b : handle) : bool :=
  match a, b with
  | python, python | pythonAlt, pythonAlt | pip, pip | server, server => true
  | _, _ => false
  end.

Definition stream_eqb (a b : stream) : bool :=
  match a, b with
  | Stdout, Stdout | Stderr, Stderr => true
  | _, _ => false
  end.

Definition spawns (h : handle) (e : event) : bool :=
  match e with
  | Spawn h' _ _ => handle_eqb h' h
  | _ => false
  end.

(** The [spawn] calls that created the child held by [h]. *)
Definition spawned (h : handle) (t : list event) : list event :=
  List.filter (spawns h) t.

Definition writes_to (s : stream) (e : event) : bool :=
  match e with
  | Write s' _ => stream_eqb s' s
  | _ => false
  end.

(** What the launcher itself wrote to a stream. *)
Definition written (s : stream) (t : list event) : list event :=
  List.filter (writes_to s) t.

(** The signals the launcher received, in order. *)
Definition received (t : list event) : list signal :=
  omap (fun e => match e with Signal s => Some s | _ => None end) t.

(** The signals sent to the child held by [h], in order. *)
Definition forwarded (h : handle) (t : list event) : list signal :=
  omap (fun e => match e with
                 | Kill h' s => if handle_eqb h' h then Some s else None
                 | _ => None
                 end) t.

(** The events of a signal listener. *)
Definition from_listener (e : event) : bool :=
  match e with
  | Signal _ | Kill _ _ | Write _ Closing => true
  | _ => false
  end.

(** A trace without the events of the signal listeners. *)
Definition undisturbed (t : list event) : list event :=
  List.filter (fun e => negb (from_listener e)) t.

(** The events that precede the first event satisfying [p]. *)
Fixpoint before (p : event -> bool) (t : list event) : list event :=
  match t with
  | [] => []
  | e :: r => if p e then [] else e :: before p r
  end.

Arguments lit : simpl never.
Arguments spawned : simpl never.
Arguments written : simpl never.
Arguments received : simpl never.
Arguments forwarded : simpl never.
Arguments undisturbed : simpl never.
Arguments parse_env : simpl never.
Arguments server_env : simpl never.

(** The version query of python3 exits with 1 and there is no python on
    the PATH. *)
Definition broken_primary (h : handle) : outcome :=
  match h with
  | python => Closed (Some 1%Z)
  | pythonAlt => Failed (lit "spawn python ENOENT") 2
  | _ => Closed (Some 0%Z)
  end.

(** Both version queries exit with 1. *)
Definition no_python (h : handle) : outcome :=
  match h with
  | python | pythonAlt => Closed (Some 1%Z)
  | _ => Closed (Some 0%Z)
  end.

(** An outcome other than the 'close' event with code 0. *)
Definition failed_query (o : outcome) : Prop :=
  match o with
  | Closed code => is_zero code = false
  | Failed _ _ => True
  end.

(** ** Failures of a run *)

(** The arguments [main] passes on to [runServer]. *)
Definition server_args (w : world) (v : variant) : list jsstring :=
  match v with Bin => filteredArgs w | Alt => [] end.

(** The ways the [try] block of [main] fails with an error [e]: the entry
    point is missing, or the promise of [checkPython] (resolution), of
    [installDependencies] (installation) or of [runServer] (supervision) is
    rejected with [e]. *)
Inductive fails (w : world) (v : variant) (e : error) : Prop :=
| fails_entry_point :
    existsSync w (serverPath w) = false ->
    e = ServerFileMissing (serverPath w) ->
    fails w v e
| fails_resolution :
    existsSync w (serverPath w) = true ->
    result (checkPython w) = Throw e ->
    fails w v e
| fails_installation pythonCmd :
    existsSync w (serverPath w) = true ->
    result (checkPython w) = Normal pythonCmd ->
    shouldInstall w = true ->
    result (installDependencies w v pythonCmd (srcDir w)) = Throw e ->
    fails w v e
| fails_supervision pythonCmd :
    existsSync w (serverPath w) = true ->
    result (checkPython w) = Normal pythonCmd ->
    (shouldInstall w = true ->
     result (installDependencies w v pythonCmd (srcDir w)) = Normal tt) ->
    result (runServer w v pythonCmd (serverPath w) (server_args w v))
    = Throw e ->
    fails w v e.

(** The package started without arguments, signals or .env file. *)
Definition plain_world (children : handle -> outcome) : world :=
  posix_world [] [server_py] [] children [].

(** The path of the manifest: [requirementsPath] of [installDependencies]
    as [main] calls it. *)
Definition requirementsPath (w : world) : jsstring :=
  path_join w (srcDir w) (lit "requirements.txt").

(** The stdio option of the installer. *)
Definition pip_stdio (v : variant) : mode * mode * mode :=
  match v with Bin => inherit | Alt => (Pipe, Pipe, Inherit) end.

(** The property a line assigns, when the callback of [loadEnvFile]
    assigns one: the trimmed text before the first '=' of a line whose key
    and value are both truthy. *)
Definition line_key (line : jsstring) : option jsstring :=
  let parts := split code_eq line in
  match parts !! 0%nat, parts !! 1%nat with
  | Some key, Some value =>
      if truthy (Some key) && truthy (Some value) then Some (trim key)
      else None
  | _, _ => None
  end.

(** The path [loadEnvFile] reads. *)
Definition envPath (w : world) : jsstring := path_join w (cwd w) (lit ".env").

(** The lines of a file content. *)
Definition lines (content : jsstring) : list jsstring := split code_nl content.

(** The number of lines of the usage text. *)
Definition usage_lines (v : variant) : nat :=
  match v with Bin => 19 | Alt => 3 end.

(** ** Arguments passed on to the server *)

(** The arguments as the specification words them: all arguments other
    than --install and -i, unchanged and in their original order. *)
Fixpoint passthrough (l : list jsstring) : list jsstring :=
  match l with
  | [] => []
  | arg :: rest =>
      if decide (arg = lit "--install") then passthrough rest
      else if decide (arg = lit "-i") then passthrough rest
      else arg :: passthrough rest
  end.

(** The number of '=' characters of a line. *)
Definition equals_signs (line : jsstring) : nat :=
  count_occ N.eq_dec line code_eq.

(** ** Further vocabulary for the properties of the scripts *)

(** The error a failed installer is reported with: the 'close' listener of
    [pip] rejects with the exit code, its 'error' listener with the
    message. *)
Definition install_error (o : outcome) : error :=
  match o with
  | Closed code => InstallFailed code
  | Failed msg _ => PipError msg
  end.

(** The same for the listeners of [server]. *)
Definition server_error (o : outcome) : error :=
  match o with
  | Closed code => ServerExited code
  | Failed msg _ => ServerError msg
  end.

(** The child an event of a trace belongs to. *)
Definition child_started (e : event) : option handle :=
  match e with Spawn h _ _ => Some h | _ => None end.

Definition child_ended (e : event) : option handle :=
  match e with
  | ChildClose h _ | ChildError h _ => Some h
  | _ => None
  end.

(** The children of the launcher at one point of a run: the one that is
    running, if any, and those that could not be started and whose 'close'
    event is still to come. *)
Record children := Children {
  running : option handle;
  failed : list handle
}.





(** The value the callback of [loadEnvFile] assigns on a line, when it
    assigns one. *)
Definition line_value (v : variant) (line : jsstring) : option jsstring :=
  let parts := split code_eq line in
  match parts !! 0%nat, parts !! 1%nat with
  | Some key, Some value =>
      if truthy (Some key) && truthy (Some value)
      then Some (env_value v value)
      else None
  | _, _ => None
  end.

(** The strings of a list put together with a separator between them (what
    [Array.prototype.join] does), to state what [split] keeps. *)
Fixpoint join (sep : N) (pieces : list jsstring) : jsstring :=
  match pieces with
  | [] => []
  | [piece] => piece
  | piece :: rest => piece ++ sep :: join sep rest
  end.

(** The overlay [runServer] gets from [loadEnvFile]. *)
Definition loaded_overlay (w : world) (v : variant) : gmap jsstring jsstring :=
  match result (loadEnvFile w v) with
  | Normal overlay => overlay
  | _ => ∅
  end.

(** The children a trace starts, in order. *)
Definition started (t : list event) : list handle := omap child_started t.

Arguments started : simpl never.

(** The command lines a trace starts, with the child each is held by. *)
Definition commands (t : list event) : list (handle * command) :=
  omap (fun e => match e with
                 | Spawn h c _ => Some (h, c)
                 | _ => None
                 end) t.

Arguments commands : simpl never.

(** The number of fallback children [checkPython] starts for one answer
    of python3: none when python3 closes with code 0, one when it closes
    with another code, two when it cannot be started (one from each of its
    listeners). *)
Definition fallbacks_started (primary : outcome) : nat :=
  match primary with
  | Closed code => if is_zero code then 0 else 1
  | Failed _ _ => 2
  end.

(** * Properties of the launchers *)

(** ** The embedding on small inputs *)

Example split_three : split code_eq (lit "a=b=c") = [lit "a"; lit "b"; lit "c"].
Proof. reflexivity. Qed.

Example split_empty : split code_eq [] = [[]].
Proof. reflexivity. Qed.

Example split_trailing : split code_eq (lit "a=") = [lit "a"; []].
Proof. reflexivity. Qed.

Example trim_both_ends : trim (lit "  a b  ") = lit "a b".
Proof. reflexivity. Qed.

Example strip_quotes_pair :
  strip_quotes (code_dq :: lit "ab" ++ [code_dq]) = lit "ab".
Proof. reflexivity. Qed.

Example strip_quotes_lone : strip_quotes [code_sq] = [].
Proof. reflexivity. Qed.

Example strip_quotes_inner : strip_quotes (lit "a'b") = lit "a'b".
Proof. reflexivity. Qed.

Example parse_env_quoted_bin :
  parse_env Bin (lit "K='v'") = {[ lit "K" := lit "'v'" ]}.
Proof. reflexivity. Qed.

Example parse_env_quoted_alt :
  parse_env Alt (lit "K='v'") = {[ lit "K" := lit "v" ]}.
Proof. reflexivity. Qed.

Example parse_env_proto : parse_env Bin (lit "__proto__=x") = ∅.
Proof. reflexivity. Qed.

(** A run of [Alt] with --install in which everything succeeds. *)
Example alt_install_run :
  launcher
    (posix_world [lit "--install"] [server_py; requirements_txt] []
       all_fine [SIGTERM]) Alt
  = ([Spawn python (Command (lit "python3") [lit "--version"])
        (Options pipes None);
      ChildClose python (Some 0%Z);
      Write Stderr Installing;
      Spawn pip
        (Command (lit "python3")
           [lit "-m"; lit "pip"; lit "install"; lit "-r"; requirements_txt])
        (Options (Pipe, Pipe, Inherit) None);
      ChildClose pip (Some 0%Z);
      Write Stderr Starting;
      Spawn server (Command (lit "python3") [server_py])
        (Options inherit
           (Some {[ lit "PYTHONUNBUFFERED" := lit "1";
                    lit "PATH" := lit "/usr/bin" ]}));
      Signal SIGTERM;
      Kill server SIGTERM;
      ChildClose server (Some 0%Z)],
     Normal tt).
Proof. vm_compute. reflexivity. Qed.

(** ** Facts about [split] *)

Lemma split_not_nil sep s : split sep s <> [].
Proof.
  destruct s as [|c r]; simpl; [discriminate|].
  destruct (N.eqb c sep); [discriminate|].
  destruct (split sep r); discriminate.
Qed.

Lemma split_no_sep sep s : sep ∉ s -> split sep s = [s].
Proof.
  induction s as [|c r IH]; intros Hs; simpl; [reflexivity|].
  apply not_elem_of_cons in Hs as [Hc Hr].
  destruct (N.eqb_spec c sep) as [->|_]; [contradiction|].
  rewrite (IH Hr). reflexivity.
Qed.

Lemma split_app_sep sep k r :
  sep ∉ k -> split sep (k ++ sep :: r) = k :: split sep r.
Proof.
  induction k as [|c k IH]; intros Hk; simpl.
  - rewrite N.eqb_refl. reflexivity.
  - apply not_elem_of_cons in Hk as [Hc Hk].
    destruct (N.eqb_spec c sep) as [->|_]; [contradiction|].
    rewrite (IH Hk). reflexivity.
Qed.

(** ** Facts about [trim] *)

Lemma trim_start_app_nonspace l c :
  is_space c = false -> trim_start (l ++ [c]) = trim_start l ++ [c].
Proof.
  intros Hc. induction l as [|a l IH]; simpl.
  - rewrite Hc. reflexivity.
  - destruct (is_space a); [exact IH | reflexivity].
Qed.

Lemma trim_start_app_space l c :
  is_space c = true ->
  trim_start (l ++ [c]) = match trim_start l with
                          | [] => []
                          | x :: r => x :: r ++ [c]
                          end.
Proof.
  intros Hc. induction l as [|a l IH]; simpl.
  - rewrite Hc. reflexivity.
  - destruct (is_space a); [exact IH | reflexivity].
Qed.

Lemma trim_start_idempotent s : trim_start (trim_start s) = trim_start s.
Proof.
  induction s as [|c s IH]; simpl; [reflexivity|].
  destruct (is_space c) eqn:Hc; [exact IH|]. simpl. rewrite Hc. reflexivity.
Qed.

Lemma trim_end_cons_nonspace c r :
  is_space c = false -> trim_end (c :: r) = c :: trim_end r.
Proof.
  intros Hc. unfold trim_end. simpl.
  rewrite (trim_start_app_nonspace _ _ Hc), rev_app_distr. reflexivity.
Qed.

Lemma trim_end_snoc_space s c :
  is_space c = true -> trim_end (s ++ [c]) = trim_end s.
Proof.
  intros Hc. unfold trim_end. rewrite rev_app_distr. simpl.
  rewrite Hc. reflexivity.
Qed.

Lemma trim_end_snoc_nonspace s c :
  is_space c = false -> trim_end (s ++ [c]) = s ++ [c].
Proof.
  intros Hc. unfold trim_end. rewrite rev_app_distr. simpl.
  rewrite Hc. simpl. rewrite rev_involutive. reflexivity.
Qed.

Lemma trim_end_idempotent s : trim_end (trim_end s) = trim_end s.
Proof.
  unfold trim_end. rewrite rev_involutive, trim_start_idempotent.
  reflexivity.
Qed.

(** What [trim] returns starts with a character that is no white space,
    when it returns any. *)
Lemma trim_shape s :
  trim s = [] \/
  exists c r, is_space c = false /\ trim_start s = c :: r /\
              trim s = c :: trim_end r.
Proof.
  unfold trim. induction s as [|c s IH]; simpl; [left; reflexivity|].
  destruct (is_space c) eqn:Hc; [exact IH|].
  right. exists c, s. split; [exact Hc|]. split; [reflexivity|].
  apply trim_end_cons_nonspace, Hc.
Qed.

Lemma trim_idempotent s : trim (trim s) = trim s.
Proof.
  destruct (trim_shape s) as [-> | (c & r & Hc & _ & ->)]; [reflexivity|].
  unfold trim. simpl. rewrite Hc.
  rewrite !(trim_end_cons_nonspace _ _ Hc), trim_end_idempotent.
  reflexivity.
Qed.

Lemma trim_snoc_space s c : is_space c = true -> trim (s ++ [c]) = trim s.
Proof.
  intros Hc. unfold trim. rewrite (trim_start_app_space _ _ Hc).
  destruct (trim_start s) as [|x r]; [reflexivity|].
  change (x :: r ++ [c]) with ((x :: r) ++ [c]).
  apply trim_end_snoc_space, Hc.
Qed.

Lemma trim_between_nonspace c s c' :
  is_space c = false -> is_space c' = false ->
  trim (c :: s ++ [c']) = c :: s ++ [c'].
Proof.
  intros Hc Hc'. unfold trim. simpl. rewrite Hc.
  change (c :: s ++ [c']) with ((c :: s) ++ [c']).
  apply trim_end_snoc_nonspace, Hc'.
Qed.

Lemma strip_last_quote_keeps s c :
  is_quote c = false -> strip_last_quote (s ++ [c]) = s ++ [c].
Proof.
  intros Hc. induction s as [|a s IH]; simpl.
  - rewrite Hc. reflexivity.
  - rewrite IH. destruct (s ++ [c]) eqn:E; [|reflexivity].
    destruct s; discriminate E.
Qed.

(** ** Lines of the .env file *)

Lemma env_line_malformed v env line :
  malformed line -> env_line v env line = env.
Proof.
  intros [l Hl | rest | key Hk]; unfold env_line.
  - rewrite (split_no_sep _ _ Hl). reflexivity.
  - simpl. destruct (split code_eq rest); reflexivity.
  - rewrite (split_app_sep _ _ _ Hk). simpl.
    rewrite andb_false_r. reflexivity.
Qed.






(** A line with a second '=': the callback sees the same key and value as
    on the line cut before that second '='. *)
Lemma env_line_second_equals v env key value rest :
  code_eq ∉ key -> code_eq ∉ value ->
  env_line v env (key ++ code_eq :: value ++ code_eq :: rest)
  = env_line v env (key ++ code_eq :: value).
Proof.
  intros Hk Hv. unfold env_line.
  rewrite !(split_app_sep _ _ _ Hk), (split_app_sep _ _ _ Hv).
  rewrite (split_no_sep _ _ Hv). reflexivity.
Qed.

Lemma env_line_records v env key value :
  code_eq ∉ key -> code_eq ∉ value ->
  key <> [] -> value <> [] -> trim key <> lit "__proto__" ->
  env_line v env (key ++ code_eq :: value)
  = <[trim key := env_value v value]> env.
Proof.
  intros Hk Hv Hk0 Hv0 Hproto. unfold env_line.
  rewrite (split_app_sep _ _ _ Hk), (split_no_sep _ _ Hv). simpl.
  destruct key; [contradiction|]. destruct value; [contradiction|]. simpl.
  unfold set_property. rewrite decide_False by exact Hproto. reflexivity.
Qed.

(** ** Observations on the events of the signal listeners *)

Lemma for_each_on_signal v sigs :
  for_each (on_signal v) sigs = (flat_map (signal_events v) sigs, Normal tt).
Proof.
  induction sigs as [|s sigs IH]; [reflexivity|].
  simpl for_each. rewrite IH. destruct v; reflexivity.
Qed.

Lemma spawned_app h t1 t2 : spawned h (t1 ++ t2) = spawned h t1 ++ spawned h t2.
Proof. apply List.filter_app. Qed.

Lemma spawned_cons h e t :
  spawned h (e :: t) = (if spawns h e then [e] else []) ++ spawned h t.
Proof. unfold spawned. simpl. destruct (spawns h e); reflexivity. Qed.

Lemma written_app s t1 t2 : written s (t1 ++ t2) = written s t1 ++ written s t2.
Proof. apply List.filter_app. Qed.

Lemma written_cons s e t :
  written s (e :: t) = (if writes_to s e then [e] else []) ++ written s t.
Proof. unfold written. simpl. destruct (writes_to s e); reflexivity. Qed.

Lemma received_app t1 t2 : received (t1 ++ t2) = received t1 ++ received t2.
Proof. apply omap_app. Qed.

Lemma received_cons e t :
  received (e :: t)
  = match e with Signal s => [s] | _ => [] end ++ received t.
Proof. destruct e; reflexivity. Qed.

Lemma forwarded_app h t1 t2 :
  forwarded h (t1 ++ t2) = forwarded h t1 ++ forwarded h t2.
Proof. apply omap_app. Qed.

Lemma forwarded_cons h e t :
  forwarded h (e :: t)
  = match e with
    | Kill h' s => if handle_eqb h' h then [s] else []
    | _ => []
    end ++ forwarded h t.
Proof.
  destruct e as [| | | |h' s|]; try reflexivity.
  unfold forwarded. cbn. destruct (handle_eqb h' h); reflexivity.
Qed.

Lemma undisturbed_app t1 t2 :
  undisturbed (t1 ++ t2) = undisturbed t1 ++ undisturbed t2.
Proof. apply List.filter_app. Qed.

Lemma undisturbed_cons e t :
  undisturbed (e :: t) = (if from_listener e then [] else [e]) ++ undisturbed t.
Proof. unfold undisturbed. simpl. destruct (from_listener e); reflexivity. Qed.

Lemma spawned_signals h v sigs : spawned h (flat_map (signal_events v) sigs) = [].
Proof. induction sigs as [|s sigs IH]; [reflexivity|]. destruct v; exact IH. Qed.

Lemma written_signals_alt s sigs :
  written s (flat_map (signal_events Alt) sigs) = [].
Proof. induction sigs as [|x sigs IH]; [reflexivity|]. exact IH. Qed.

Lemma written_stderr_signals v sigs :
  written Stderr (flat_map (signal_events v) sigs) = [].
Proof. induction sigs as [|x sigs IH]; [reflexivity|]. destruct v; exact IH. Qed.

Lemma received_signals v sigs :
  received (flat_map (signal_events v) sigs) = sigs.
Proof.
  induction sigs as [|s sigs IH]; [reflexivity|].
  destruct v; cbn; rewrite !received_cons, IH; reflexivity.
Qed.

Lemma forwarded_signals v sigs :
  forwarded server (flat_map (signal_events v) sigs) = sigs.
Proof.
  induction sigs as [|s sigs IH]; [reflexivity|].
  destruct v; cbn; rewrite !forwarded_cons, IH; reflexivity.
Qed.

Lemma undisturbed_signals v sigs :
  undisturbed (flat_map (signal_events v) sigs) = [].
Proof. induction sigs as [|s sigs IH]; [reflexivity|]. destruct v; exact IH. Qed.

(** The events before the first [p]-event are among those that precede any
    [p]-event. *)
Lemma before_split p pre e post :
  p e = true -> forall x, In x (before p (pre ++ e :: post)) -> In x pre.
Proof.
  intros He. induction pre as [|y pre IH]; simpl; intros x.
  - rewrite He. intros [].
  - destruct (p y); [intros []|]. intros [->|Hx]; [left; reflexivity|].
    right. apply IH. exact Hx.
Qed.

Lemma spawned_nil h : spawned h [] = [].
Proof. reflexivity. Qed.
Lemma written_nil s : written s [] = [].
Proof. reflexivity. Qed.
Lemma received_nil : received [] = [].
Proof. reflexivity. Qed.
Lemma forwarded_nil h : forwarded h [] = [].
Proof. reflexivity. Qed.
Lemma undisturbed_nil : undisturbed [] = [].
Proof. reflexivity. Qed.

Create Rewrite HintDb observe.
#[global] Hint Rewrite
  spawned_nil written_nil received_nil forwarded_nil undisturbed_nil
  spawned_app written_app received_app forwarded_app undisturbed_app
  spawned_cons written_cons received_cons forwarded_cons undisturbed_cons
  spawned_signals written_signals_alt written_stderr_signals
  received_signals forwarded_signals undisturbed_signals
  : observe.

(** ** Running the scripts symbolically *)

(** The next question the script asks the world.  An answer fixed by a
    hypothesis is used; otherwise every answer is followed. *)
Ltac ask x :=
  match goal with
  | H : x = _ |- _ => rewrite H
  | _ => let E := fresh "Hw" in destruct x eqn:E
  end.

(** The questions in program order, so that no case is opened for a
    statement the run does not reach. *)
Ltac world_case :=
  match goal with
  | |- context [help_requested ?w] => ask (help_requested w)
  | |- context [existsSync ?w (serverPath ?w)] =>
      ask (existsSync w (serverPath w))
  | |- context [is_zero ?code] => ask (is_zero code)
  | |- context [child ?w python ?c ?o] => ask (child w python c o)
  | |- context [child ?w pythonAlt ?c ?o] => ask (child w pythonAlt c o)
  | |- context [checkPython ?w] => ask (checkPython w)
  | |- context [match ?r with Normal _ => _ | _ => _ end] =>
      is_var r; destruct r
  | |- context [shouldInstall ?w] => ask (shouldInstall w)
  | |- context [existsSync ?w (path_join ?w (srcDir ?w) ?f)] =>
      ask (existsSync w (path_join w (srcDir w) f))
  | |- context [child ?w pip ?c ?o] => ask (child w pip c o)
  | |- context [existsSync ?w ?p] => ask (existsSync w p)
  | |- context [readFileSync ?w ?p] => ask (readFileSync w p)
  | |- context [child ?w server ?c ?o] => ask (child w server c o)
  end.

Ltac unfold_script :=
  unfold launcher, main, main_body, runServer, loadEnvFile,
    installDependencies, spawn, both_listeners, failure_code, usage, log,
    log_stream, try_catch, trace, result;
  rewrite ?for_each_on_signal.

Ltac unfold_checkPython :=
  unfold checkPython, fallback_closed, spawn, both_listeners, failure_code,
    trace, result.

Ltac reduce := cbn -[seq flat_map checkPython].

Ltac run := unfold_script; reduce; repeat (world_case; reduce).

Ltac observe := autorewrite with observe; reduce.

(** Case analysis on a membership in an explicit list of events. *)
Ltac members :=
  let Hm := fresh "Hm" in
  simpl; intros Hm; repeat (destruct Hm as [Hm|Hm]);
  try contradiction; try (inversion Hm; subst; clear Hm).

(** ** Interpreter resolution *)

Lemma checkPython_primary w :
  child w python (version_query (lit "python3")) (Options pipes None) = Closed (Some 0%Z) ->
  checkPython w =
    ([Spawn python (version_query (lit "python3")) (Options pipes None);
      ChildClose python (Some 0%Z)], Normal (lit "python3")).
Proof. intros H. unfold_checkPython. rewrite H. reflexivity. Qed.

(** [checkPython] starts no child but [python] and [pythonAlt], writes
    nothing, receives no signal and never calls [process.exit]. *)
Lemma checkPython_footprint w :
  spawned pip (trace (checkPython w)) = [] /\
  spawned server (trace (checkPython w)) = [] /\
  (forall s, written s (trace (checkPython w)) = []) /\
  received (trace (checkPython w)) = [] /\
  (forall h, forwarded h (trace (checkPython w)) = []) /\
  undisturbed (trace (checkPython w)) = trace (checkPython w) /\
  (forall code, result (checkPython w) <> Exit code).
Proof.
  unfold_checkPython.
  repeat (world_case; cbn); repeat split; try reflexivity; try discriminate.
Qed.

Lemma in_spawned h c o t :
  In (Spawn h c o) t -> In (Spawn h c o) (spawned h t).
Proof.
  intros H. apply List.filter_In. split; [exact H|].
  destruct h; reflexivity.
Qed.

(** C1: when the version query of python3 closes with code 0,
    [checkPython] resolves to python3 and the secondary candidate is never
    spawned: not by [checkPython], and not in the rest of the run of either
    launcher, where every child is started with python3. *)
Theorem C1_checkPython_primary_resolves (w : world) :
  child w python (version_query (lit "python3")) (Options pipes None) = Closed (Some 0%Z) ->
  result (checkPython w) = Normal (lit "python3") /\
  spawned pythonAlt (trace (checkPython w)) = [] /\
  forall v,
    spawned pythonAlt (trace (launcher w v)) = [] /\
    forall h c o,
      In (Spawn h c o) (trace (launcher w v)) -> file c = lit "python3".
Proof.
  intros H. pose proof (checkPython_primary w H) as Hpy.
  split; [rewrite Hpy; reflexivity|].
  split; [rewrite Hpy; reflexivity|].
  intros v. split.
  - destruct v; run; observe; reflexivity.
  - intros h c o Hin. apply in_spawned in Hin. revert Hin.
    destruct v, h; run; observe; members; reflexivity.
Qed.

Lemma C1_witness :
  let w := posix_world [] [server_py] [] all_fine [] in
  child w python (version_query (lit "python3")) (Options pipes None) = Closed (Some 0%Z) /\
  result (checkPython w) = Normal (lit "python3") /\
  spawned pythonAlt (trace (launcher w Bin)) = [].
Proof.
  intros w. split; [reflexivity|].
  destruct (C1_checkPython_primary_resolves w) as (Hres & _ & Hrun);
    [reflexivity|].
  split; [exact Hres | exact (proj1 (Hrun Bin))].
Defined.

(** The failures [checkPython] handles: both version queries fail and the
    one of python closes, with a code other than 0. *)
Lemma checkPython_rejects w altCode :
  failed_query (child w python (version_query (lit "python3")) (Options pipes None)) ->
  child w pythonAlt (version_query (lit "python")) (Options pipes None)
  = Closed altCode ->
  is_zero altCode = false ->
  result (checkPython w) = Throw PythonNotFound /\
  forall v,
    help_requested w = false -> existsSync w (serverPath w) = true ->
    spawned pip (trace (launcher w v)) = [] /\
    spawned server (trace (launcher w v)) = [] /\
    result (launcher w v) = Exit 1.
Proof.
  intros H3 H Hz.
  assert (Hpy : exists t, checkPython w = (t, Throw PythonNotFound)).
  { unfold_checkPython. rewrite H.
    destruct (child w python _ _) as [code|msg errno]; simpl in H3;
      rewrite ?H3; cbn; rewrite Hz; cbn; eauto. }
  destruct Hpy as [t Hpy].
  pose proof (checkPython_footprint w) as (Hpip & Hserver & _).
  rewrite Hpy in Hpip, Hserver. simpl in Hpip, Hserver.
  split; [rewrite Hpy; reflexivity|].
  intros v Hhelp Hexists.
  destruct v; run; observe; rewrite ?Hpip, ?Hserver; repeat split.
Qed.


(** C2: python3 answers its version query with exit code 1 and python
    cannot be started.  The fallback started from the 'close' listener has no
    'error' listener, so the promise of [checkPython] is never rejected: the
    run ends in the unhandled 'error' event, and the catch clause of [main]
    writes no message. *)
Theorem C2_checkPython_unhandled_error :
  let w := posix_world [] [server_py] [] broken_primary [] in
  failed_query (child w python (version_query (lit "python3")) (Options pipes None)) /\
  failed_query (child w pythonAlt (version_query (lit "python")) (Options pipes None)) /\
  checkPython w =
    ([Spawn python (version_query (lit "python3")) (Options pipes None);
      ChildClose python (Some 1%Z);
      Spawn pythonAlt (version_query (lit "python")) (Options pipes None);
      ChildError pythonAlt (lit "spawn python ENOENT")],
     Uncaught (UnhandledError (lit "spawn python ENOENT"))) /\
  result (checkPython w) <> Throw PythonNotFound /\
  forall v,
    result (launcher w v)
    = Uncaught (UnhandledError (lit "spawn python ENOENT")) /\
    ~ In (Write (log_stream v) (ErrorLine PythonNotFound))
        (trace (launcher w v)).
Proof.
  intros w. split; [reflexivity|]. split; [exact I|].
  split; [reflexivity|]. split; [discriminate|].
  intros [|]; (split; [reflexivity|]); vm_compute; intuition discriminate.
Qed.

(** ** Failure reporting *)

(** A failing [try] block ends in the [catch] clause. *)
Lemma main_catches w v e :
  result (main_body w v) = Throw e ->
  main w v = (trace (main_body w v) ++ [Write (log_stream v) (ErrorLine e)],
              Exit 1).
Proof.
  unfold main, try_catch. destruct (main_body w v) as [t r]. simpl.
  intros ->. reflexivity.
Qed.

Lemma fails_throws w v e : fails w v e -> result (main_body w v) = Throw e.
Proof.
  intros [Hx -> | Hx Hpy | cmd Hx Hpy Hi Hinst | cmd Hx Hpy Hinst Hrun];
    unfold main_body, server_args in *; rewrite Hx;
    destruct (checkPython w) as [t r]; simpl in *; try subst r;
    destruct v; cbn -[installDependencies runServer]; try reflexivity.
  all: try rewrite Hi.
  all: try (destruct (installDependencies w _ cmd (srcDir w)) as [t' r'];
            simpl in Hinst; subst r'; reflexivity).
  all: destruct (shouldInstall w);
    [ specialize (Hinst eq_refl);
      destruct (installDependencies w _ cmd (srcDir w)) as [t' r'];
      simpl in Hinst; subst r' | ];
    cbn -[runServer];
    destruct (runServer w _ cmd (serverPath w) _) as [t'' r''];
    simpl in Hrun; subst r''; reflexivity.
Qed.

Lemma written_stdout_alt w : written Stdout (trace (launcher w Alt)) = [].
Proof.
  pose proof (checkPython_footprint w) as (_ & _ & Hwr & _).
  specialize (Hwr Stdout). unfold trace in Hwr.
  run; observe; simpl in Hwr; rewrite ?Hwr; reflexivity.
Qed.

Lemma written_stderr_bin w : written Stderr (trace (launcher w Bin)) = [].
Proof.
  pose proof (checkPython_footprint w) as (_ & _ & Hwr & _).
  specialize (Hwr Stderr). unfold trace in Hwr.
  run; observe; simpl in Hwr; rewrite ?Hwr; reflexivity.
Qed.

(** Every way the [try] block can throw is one of the failures above. *)
Lemma throws_fails w v e : result (main_body w v) = Throw e -> fails w v e.
Proof.
  unfold main_body.
  destruct (existsSync w (serverPath w)) eqn:Hx.
  2:{ destruct v; simpl; intros H; inversion H;
      apply fails_entry_point; auto. }
  destruct (checkPython w) as [t r] eqn:Hpy.
  assert (Hr : result (checkPython w) = r) by (rewrite Hpy; reflexivity).
  destruct r as [cmd|e'|c|e'].
  2:{ destruct v; simpl; intros H; inversion H; subst;
      apply fails_resolution; auto. }
  2,3: destruct v; simpl; discriminate.
  destruct (shouldInstall w) eqn:Hi.
  - destruct (installDependencies w v cmd (srcDir w)) as [t' r'] eqn:Hinst.
    assert (Hr' : result (installDependencies w v cmd (srcDir w)) = r')
      by (rewrite Hinst; reflexivity).
    destruct r' as [[]|e'|c|e'].
    2:{ destruct v; cbn -[installDependencies runServer];
        rewrite Hinst; simpl; intros H; inversion H; subst;
        eapply fails_installation; eauto. }
    2,3: destruct v; cbn -[installDependencies runServer];
         rewrite Hinst; simpl; discriminate.
    intros H. apply (fails_supervision w v e cmd Hx Hr); [intros _; exact Hr'|].
    revert H. unfold server_args.
    destruct v; cbn -[installDependencies runServer]; rewrite Hinst;
      cbn -[runServer];
      destruct (runServer w _ cmd (serverPath w) _) as [t'' r''];
      destruct r''; simpl; congruence.
  - intros H. apply (fails_supervision w v e cmd Hx Hr); [congruence|].
    revert H. unfold server_args.
    destruct v; cbn -[runServer];
      destruct (runServer w _ cmd (serverPath w) _) as [t'' r''];
      destruct r''; simpl; congruence.
Qed.

(** The server child closed with code 0: the script runs to its end. *)
Lemma server_zero_exit_zero w v c o :
  In (Spawn server c o) (trace (launcher w v)) ->
  child w server c o = Closed (Some 0%Z) ->
  exit_status (result (launcher w v)) = Some 0%Z.
Proof.
  intros Hin Hc. apply in_spawned in Hin. revert Hin.
  pose proof (checkPython_footprint w) as (_ & Hserver & _).
  unfold trace in Hserver.
  destruct v; run; observe; simpl in Hserver; rewrite ?Hserver;
    members; try reflexivity;
    match goal with
    | H : child _ server _ _ = _ |- _ =>
        rewrite Hc in H; try discriminate H; injection H as <-; discriminate
    end.
Qed.

(** C3, as the code has it: when the entry point is missing or
    resolution, installation or supervision fails with an error, the launcher
    (started without a help flag) writes the message of that error with
    [log] as its last action and exits with status 1.  [log] writes to the
    error stream in [Alt], which never writes to standard output, and to
    standard output in [Bin], which never writes to the error stream.  In
    both launchers a server child that closes with code 0 lets the launcher
    end with status 0. *)
Theorem C3_failures_are_logged (w : world) (v : variant) :
  (forall e,
     help_requested w = false -> fails w v e ->
     (exists t,
        trace (launcher w v) = t ++ [Write (log_stream v) (ErrorLine e)]) /\
     exit_status (result (launcher w v)) = Some 1%Z) /\
  log_stream Alt = Stderr /\
  written Stdout (trace (launcher w Alt)) = [] /\
  log_stream Bin = Stdout /\
  written Stderr (trace (launcher w Bin)) = [] /\
  (forall c o,
     In (Spawn server c o) (trace (launcher w v)) ->
     child w server c o = Closed (Some 0%Z) ->
     exit_status (result (launcher w v)) = Some 0%Z).
Proof.
  split.
  { intros e Hhelp Hfails. unfold launcher. rewrite Hhelp.
    rewrite (main_catches w v e (fails_throws w v e Hfails)).
    split; [eexists; reflexivity | reflexivity]. }
  split; [reflexivity|]. split; [apply written_stdout_alt|].
  split; [reflexivity|]. split; [apply written_stderr_bin|].
  apply server_zero_exit_zero.
Qed.

Lemma C3_witness :
  let w := plain_world no_python in
  help_requested w = false /\ fails w Alt PythonNotFound /\
  (exists t,
     trace (launcher w Alt) = t ++ [Write Stderr (ErrorLine PythonNotFound)]) /\
  exit_status (result (launcher w Alt)) = Some 1%Z.
Proof.
  intros w.
  assert (Hhelp : help_requested w = false) by reflexivity.
  assert (Hfails : fails w Alt PythonNotFound)
    by (apply fails_resolution; reflexivity).
  split; [exact Hhelp|]. split; [exact Hfails|].
  exact (proj1 (C3_failures_are_logged w Alt) PythonNotFound Hhelp Hfails).
Defined.

(** C3 as stated fails for [Bin]: both version queries exit with 1,
    resolution fails, and the message goes to standard output; nothing is
    written to the error stream. *)
Lemma C3_counterexample :
  let w := plain_world no_python in
  fails w Bin PythonNotFound /\
  In (Write Stdout (ErrorLine PythonNotFound)) (trace (launcher w Bin)) /\
  written Stderr (trace (launcher w Bin)) = [] /\
  result (launcher w Bin) = Exit 1.
Proof.
  intros w. split; [apply fails_resolution; reflexivity|].
  split; [vm_compute; tauto|]. split; reflexivity.
Qed.

(** ** Installation *)

Lemma is_zero_true code : is_zero code = true -> code = Some 0%Z.
Proof. destruct code as [[| |]|]; simpl; congruence. Qed.

Lemma spawned_none_existsb h t : spawned h t = [] -> existsb (spawns h) t = false.
Proof.
  induction t as [|e t IH]; [reflexivity|].
  rewrite spawned_cons. simpl. destruct (spawns h e); [discriminate|].
  exact IH.
Qed.

Lemma before_app_miss p t1 t2 :
  existsb p t1 = false -> before p (t1 ++ t2) = t1 ++ before p t2.
Proof.
  induction t1 as [|e t1 IH]; simpl; [reflexivity|].
  destruct (p e); [discriminate|]. simpl. intros H. rewrite (IH H).
  reflexivity.
Qed.

Lemma spawned_in_middle h pre c o post :
  spawned h (pre ++ Spawn h c o :: post) <> [].
Proof.
  rewrite spawned_app, spawned_cons. simpl.
  replace (handle_eqb h h) with true by (destruct h; reflexivity).
  intros H. apply app_eq_nil in H as [_ H]. discriminate H.
Qed.

(** Membership in an explicit list of events with symbolic segments. *)
Ltac find_event := simpl; rewrite ?in_app_iff; simpl; auto 30.

Section Install.

Variables (w : world) (v : variant) (pythonCmd : jsstring).
Hypothesis Hhelp : help_requested w = false.
Hypothesis Hentry : existsSync w (serverPath w) = true.
Hypothesis Hresolved : result (checkPython w) = Normal pythonCmd.
Hypothesis Hinstall : shouldInstall w = true.
Hypothesis Hmanifest : existsSync w (requirementsPath w) = true.

Lemma installer_spawned_once :
  spawned pip (trace (launcher w v))
  = [Spawn pip (pip_install pythonCmd (requirementsPath w))
       (Options (pip_stdio v) None)].
Proof.
  unfold requirementsPath in *.
  pose proof (checkPython_footprint w) as (Hpip & _).
  destruct (checkPython w) as [tpy r] eqn:Hpy. simpl in Hresolved, Hpip.
  subst r.
  destruct v; run; observe; rewrite ?Hpip; reflexivity.
Qed.

Lemma installer_closed_before_server :
  spawned server (trace (launcher w v)) = [] \/
  In (ChildClose pip (Some 0%Z))
     (before (spawns server) (trace (launcher w v))).
Proof.
  unfold requirementsPath in *.
  pose proof (checkPython_footprint w) as (_ & Hserver & _).
  destruct (checkPython w) as [tpy r] eqn:Hpy. simpl in Hresolved, Hserver.
  subst r. pose proof (spawned_none_existsb _ _ Hserver) as Hmiss.
  destruct v; run; rewrite <- ?app_assoc; reduce;
    rewrite (before_app_miss _ _ _ Hmiss); reduce;
    try (left; observe; rewrite ?Hserver; reflexivity);
    right;
    repeat match goal with
           | H : is_zero _ = true |- _ => apply is_zero_true in H; subst
           end;
    find_event.
Qed.

End Install.

(** C4, as the code has it: in a run started with --install or -i and
    without a help flag, in which server.py exists, [checkPython] resolves an
    interpreter and requirements.txt exists, the installer is spawned
    exactly once, as [pythonCmd -m pip install -r requirementsPath], and a
    server is spawned only after the installer has closed with code 0. *)
Theorem C4_installer_once_before_server
    (w : world) (v : variant) (pythonCmd : jsstring) :
  help_requested w = false ->
  existsSync w (serverPath w) = true ->
  result (checkPython w) = Normal pythonCmd ->
  shouldInstall w = true ->
  existsSync w (requirementsPath w) = true ->
  spawned pip (trace (launcher w v))
  = [Spawn pip
       (Command pythonCmd
          [lit "-m"; lit "pip"; lit "install"; lit "-r"; requirementsPath w])
       (Options (pip_stdio v) None)] /\
  forall pre c o post,
    trace (launcher w v) = pre ++ Spawn server c o :: post ->
    In (ChildClose pip (Some 0%Z)) pre.
Proof.
  intros Hhelp Hentry Hresolved Hinstall Hmanifest. split.
  - exact (installer_spawned_once w v pythonCmd
             Hhelp Hentry Hresolved Hinstall Hmanifest).
  - intros pre c o post Ht.
    destruct (installer_closed_before_server w v pythonCmd
                Hhelp Hentry Hresolved Hinstall Hmanifest) as [Hnone | Hin].
    + rewrite Ht in Hnone. destruct (spawned_in_middle _ _ _ _ _ Hnone).
    + rewrite Ht in Hin. revert Hin. apply before_split. reflexivity.
Qed.

Lemma C4_witness :
  let w := posix_world [lit "--install"] [server_py; requirements_txt] []
             all_fine [] in
  help_requested w = false /\
  shouldInstall w = true /\
  spawned pip (trace (launcher w Bin))
  = [Spawn pip
       (Command (lit "python3")
          [lit "-m"; lit "pip"; lit "install"; lit "-r"; requirements_txt])
       (Options inherit None)].
Proof.
  intros w. split; [reflexivity|]. split; [reflexivity|].
  exact (proj1 (C4_installer_once_before_server w Bin (lit "python3")
                  eq_refl eq_refl eq_refl eq_refl eq_refl)).
Defined.

(** C4 as stated fails without server.py: the manifest exists and
    --install is given, yet no installer is spawned. *)
Lemma C4_counterexample :
  let w := posix_world [lit "--install"] [requirements_txt] [] all_fine [] in
  shouldInstall w = true /\
  existsSync w (requirementsPath w) = true /\
  forall v, spawned pip (trace (launcher w v)) = [].
Proof.
  intros w. split; [reflexivity|]. split; [reflexivity|].
  intros [|]; reflexivity.
Qed.

(** C5, as the code has it: in a run started with --install or -i in
    which requirements.txt does not exist, neither an installer nor a server
    is ever spawned; when no help flag is given, the launcher exits with
    status 1. *)
Theorem C5_missing_manifest (w : world) (v : variant) :
  shouldInstall w = true ->
  existsSync w (requirementsPath w) = false ->
  spawned pip (trace (launcher w v)) = [] /\
  spawned server (trace (launcher w v)) = [] /\
  (help_requested w = false ->
   exit_status (result (launcher w v)) = Some 1%Z).
Proof.
  unfold requirementsPath. intros Hinstall Hmanifest.
  pose proof (checkPython_footprint w)
    as (Hpip & Hserver & _ & _ & _ & _ & Hexit).
  unfold trace, result in Hpip, Hserver, Hexit.
  repeat split.
  - destruct v; run; observe; simpl in Hpip; rewrite ?Hpip; reflexivity.
  - destruct v; run; observe; simpl in Hserver; rewrite ?Hserver; reflexivity.
  - intros Hhelp. unfold result at 1.
    destruct v; run; try reflexivity; destruct (Hexit _ eq_refl).
Qed.

Lemma C5_witness :
  let w := posix_world [lit "-i"] [server_py] [] all_fine [] in
  shouldInstall w = true /\
  existsSync w (requirementsPath w) = false /\
  spawned pip (trace (launcher w Alt)) = [] /\
  spawned server (trace (launcher w Alt)) = [] /\
  exit_status (result (launcher w Alt)) = Some 1%Z.
Proof.
  intros w. split; [reflexivity|]. split; [reflexivity|].
  destruct (C5_missing_manifest w Alt eq_refl eq_refl) as (Hpip & Hsrv & Hexit).
  split; [exact Hpip|]. split; [exact Hsrv|].
  apply Hexit. reflexivity.
Defined.

(** C5 as stated fails when a help flag accompanies --install: the
    manifest is missing and the launcher exits with status 0. *)
Lemma C5_counterexample :
  let w := posix_world [lit "--install"; lit "--help"] [server_py] []
             all_fine [] in
  shouldInstall w = true /\
  existsSync w (requirementsPath w) = false /\
  forall v, exit_status (result (launcher w v)) = Some 0%Z.
Proof.
  intros w. split; [reflexivity|]. split; [reflexivity|].
  intros [|]; reflexivity.
Qed.

(** ** The overlay of the .env file *)

Lemma env_line_other_key v env line k :
  line_key line <> Some k -> env_line v env line !! k = env !! k.
Proof.
  unfold line_key, env_line.
  destruct (split code_eq line !! 0%nat) as [key|]; [|reflexivity].
  destruct (split code_eq line !! 1%nat) as [value|]; [|reflexivity].
  destruct (truthy (Some key) && truthy (Some value)); [|reflexivity].
  intros Hne. unfold set_property.
  destruct (decide (trim key = lit "__proto__")); [reflexivity|].
  apply lookup_insert_ne. congruence.
Qed.

Lemma fold_env_line_other_keys v lines env k :
  (forall l, l ∈ lines -> line_key l <> Some k) ->
  fold_left (env_line v) lines env !! k = env !! k.
Proof.
  revert env. induction lines as [|l lines IH]; intros env Hall;
    [reflexivity|].
  simpl. rewrite IH.
  - apply env_line_other_key, Hall. left.
  - intros l' Hl'. apply Hall. right. exact Hl'.
Qed.

Lemma malformed_no_key_assigned line : malformed line -> line_key line = None.
Proof.
  intros [l Hl | rest | key Hk]; unfold line_key.
  - rewrite (split_no_sep _ _ Hl). reflexivity.
  - simpl. destruct (split code_eq rest); reflexivity.
  - rewrite (split_app_sep _ _ _ Hk). simpl.
    rewrite andb_false_r. reflexivity.
Qed.






(** The environment of the server keeps the entries of the overlay. *)
Lemma server_env_overlay w v overlay k x :
  overlay !! k = Some x -> k <> lit "PYTHONUNBUFFERED" ->
  server_env w v overlay !! k = Some x.
Proof.
  intros Hk Hne. unfold server_env. destruct v.
  - apply lookup_union_Some_l. exact Hk.
  - rewrite lookup_insert_ne by congruence.
    apply lookup_union_Some_l. exact Hk.
Qed.

(** ** The help block *)

Lemma includes_true l x : includes l x = true <-> x ∈ l.
Proof. unfold includes. apply bool_decide_eq_true. Qed.

Lemma cli_args_in_argv w x : x ∈ cli_args w -> x ∈ argv w.
Proof. unfold cli_args. apply subseteq_drop. Qed.

Lemma help_flag_requested w :
  lit "--help" ∈ argv w \/ lit "-h" ∈ argv w -> help_requested w = true.
Proof.
  unfold help_requested. intros [H | H]; apply includes_true in H; rewrite H.
  - reflexivity.
  - apply orb_true_r.
Qed.

(** C7, as the code has it: when the argument list contains --help or
    -h, the launcher writes its usage text with [log] (to the error stream
    in [Alt], to standard output in [Bin]) and calls [process.exit(0)]; it
    does nothing else, so no interpreter is resolved and no child is
    spawned. *)
Theorem C7_help_only_prints_usage (w : world) (v : variant) :
  lit "--help" ∈ cli_args w \/ lit "-h" ∈ cli_args w ->
  launcher w v
  = (List.map (fun n => Write (log_stream v) (HelpLine n))
       (seq 0 (usage_lines v)),
     Exit 0) /\
  exit_status (result (launcher w v)) = Some 0%Z /\
  forall h, spawned h (trace (launcher w v)) = [].
Proof.
  intros Hflag.
  assert (Hhelp : help_requested w = true).
  { apply help_flag_requested.
    destruct Hflag as [H | H]; [left | right]; apply cli_args_in_argv, H. }
  unfold launcher. rewrite Hhelp.
  destruct v; (split; [reflexivity|]); (split; [reflexivity|]);
    intros h; destruct h; reflexivity.
Qed.

Lemma C7_witness :
  let w := posix_world [lit "-h"] [server_py] [] all_fine [] in
  (lit "--help" ∈ cli_args w \/ lit "-h" ∈ cli_args w) /\
  result (launcher w Alt) = Exit 0 /\
  written Stdout (trace (launcher w Alt)) = [].
Proof.
  intros w.
  assert (Hflag : lit "--help" ∈ cli_args w \/ lit "-h" ∈ cli_args w)
    by (right; left).
  split; [exact Hflag|].
  destruct (C7_help_only_prints_usage w Alt Hflag) as (Hrun & _ & _).
  rewrite Hrun. split; reflexivity.
Defined.

(** C7 as stated fails for [Bin]: its usage text goes to standard output
    and nothing is written to the error stream. *)
Lemma C7_counterexample :
  let w := posix_world [lit "--help"] [server_py] [] all_fine [] in
  lit "--help" ∈ cli_args w /\
  written Stderr (trace (launcher w Bin)) = [] /\
  In (Write Stdout (HelpLine 0)) (trace (launcher w Bin)).
Proof.
  intros w. split; [left|]. split; [reflexivity|]. left. reflexivity.
Qed.

(** ** Signals *)






(** ** Arguments of the server *)

Lemma filter_passthrough l :
  List.filter (fun arg => negb (includes [lit "--install"; lit "-i"] arg)) l
  = passthrough l.
Proof.
  induction l as [|arg rest IH]; [reflexivity|]. simpl. rewrite IH.
  unfold includes.
  destruct (decide (arg = lit "--install")) as [->|Hne1]; [reflexivity|].
  destruct (decide (arg = lit "-i")) as [->|Hne2]; [reflexivity|].
  rewrite bool_decide_eq_false_2; [reflexivity|].
  intros Hin. apply elem_of_cons in Hin as [? | Hin]; [contradiction|].
  apply list_elem_of_singleton in Hin. contradiction.
Qed.

Lemma passthrough_elem_of l x :
  x ∈ passthrough l <-> x ∈ l /\ x <> lit "--install" /\ x <> lit "-i".
Proof.
  induction l as [|arg rest IH]; simpl.
  - split; [intros H; inversion H | intros [H _]; inversion H].
  - destruct (decide (arg = lit "--install")) as [->|Hne1];
      [|destruct (decide (arg = lit "-i")) as [->|Hne2]];
      rewrite ?elem_of_cons, IH; intuition congruence.
Qed.

Lemma passthrough_sublist l : sublist (passthrough l) l.
Proof.
  induction l as [|arg rest IH]; simpl; [constructor|].
  destruct (decide (arg = lit "--install"));
    [|destruct (decide (arg = lit "-i"))]; constructor; exact IH.
Qed.

(** C9: the argument array of the server child.  In [Bin] it is the path
    of server.py followed by the command-line arguments other than --install
    and -i, unchanged and in their order; in [Alt] it is the path of
    server.py alone. *)
Theorem C9_server_arguments
    (w : world) (v : variant) (c : command) (o : spawn_options) :
  In (Spawn server c o) (trace (launcher w v)) ->
  args c
  = serverPath w
    :: match v with Bin => passthrough (cli_args w) | Alt => [] end.
Proof.
  intros Hin. apply in_spawned in Hin. revert Hin.
  pose proof (checkPython_footprint w) as (_ & Hsrv & _).
  destruct (checkPython w) as [tpy rpy] eqn:Hpy. simpl in Hsrv.
  rewrite <- filter_passthrough. fold (filteredArgs w).
  destruct v; run; observe; rewrite ?Hsrv; members; reflexivity.
Qed.

Lemma C9_witness :
  let extra := [lit "--install"; lit "--port"; lit "8080"; lit "-i";
                lit "--port"] in
  let w := posix_world extra [server_py; requirements_txt] [] all_fine [] in
  let c := Command (lit "python3")
             [server_py; lit "--port"; lit "8080"; lit "--port"] in
  let o := Options pipes (Some (server_env w Bin ∅)) in
  In (Spawn server c o) (trace (launcher w Bin)) /\
  args c = serverPath w :: passthrough (cli_args w).
Proof.
  intros extra w c o.
  assert (Hin : In (Spawn server c o) (trace (launcher w Bin)))
    by (vm_compute; tauto).
  split; [exact Hin|].
  exact (C9_server_arguments w Bin c o Hin).
Defined.

(** ** Lines with several '=' *)

(** A line with an '=' splits at its first '='. *)
Lemma first_equals line :
  0 < equals_signs line ->
  exists key rest,
    (code_eq ∉ key) /\ line = key ++ code_eq :: rest /\
    equals_signs line = S (equals_signs rest).
Proof.
  unfold equals_signs.
  induction line as [|c line IH]; simpl; [lia|].
  destruct (N.eq_dec c code_eq) as [->|Hne]; intros Hpos.
  - exists [], line. split; [apply not_elem_of_nil|]. split; reflexivity.
  - destruct (IH Hpos) as (key & rest & Hkey & -> & Hcount).
    exists (c :: key), rest. split; [|split; [reflexivity | exact Hcount]].
    apply not_elem_of_cons. split; [congruence | exact Hkey].
Qed.

Lemma after_equals_app key r :
  code_eq ∉ key -> after_equals (key ++ code_eq :: r) = Some r.
Proof.
  induction key as [|c key IH]; intros Hk; [reflexivity|].
  apply not_elem_of_cons in Hk as [Hc Hk]. simpl.
  destruct (N.eqb_spec c code_eq) as [->|_]; [contradiction|].
  exact (IH Hk).
Qed.

Lemma until_equals_app value r :
  code_eq ∉ value -> until_equals (value ++ code_eq :: r) = value.
Proof.
  induction value as [|c value IH]; intros Hv; [reflexivity|].
  apply not_elem_of_cons in Hv as [Hc Hv]. simpl.
  destruct (N.eqb_spec c code_eq) as [->|_]; [contradiction|].
  rewrite (IH Hv). reflexivity.
Qed.

(** The callback records nothing when the key or the value is empty, and
    when the key is __proto__. *)
Lemma env_line_records_nothing v env key value :
  code_eq ∉ key -> code_eq ∉ value ->
  key = [] \/ value = [] \/ trim key = lit "__proto__" ->
  env_line v env (key ++ code_eq :: value) = env.
Proof.
  intros Hk Hv Hnone. unfold env_line.
  rewrite (split_app_sep _ _ _ Hk), (split_no_sep _ _ Hv). simpl.
  destruct key as [|c key]; [reflexivity|].
  destruct value as [|c' value]; [reflexivity|]. simpl.
  destruct Hnone as [H | [H | H]]; try discriminate H.
  unfold set_property. rewrite decide_True by exact H. reflexivity.
Qed.

(** A value whose first and last characters are not removed is recorded
    as it stands. *)
Lemma env_value_plain_ends v value c c' :
  head value = Some c -> last value = Some c' ->
  end_removed v c = false -> end_removed v c' = false ->
  env_value v value = value.
Proof.
  unfold end_removed. intros Hhead Hlast Hc Hc'.
  apply orb_false_iff in Hc as [Hs Hq], Hc' as [Hs' Hq'].
  destruct value as [|x r]; [discriminate Hhead|].
  simpl in Hhead. injection Hhead as Hx. subst x.
  destruct r as [|y r'] using rev_ind.
  - simpl in Hlast. injection Hlast as Hx. subst c'.
    assert (Htrim : trim [c] = [c])
      by (unfold trim, trim_end; simpl; rewrite Hs; simpl; rewrite Hs;
          reflexivity).
    destruct v; simpl; rewrite Htrim; [reflexivity|].
    simpl. rewrite Hq. reflexivity.
  - clear IHr'. change (c :: r' ++ [y]) with ((c :: r') ++ [y]) in Hlast.
    rewrite last_snoc in Hlast. injection Hlast as Hx. subst y.
    destruct v; unfold env_value;
      rewrite (trim_between_nonspace _ _ _ Hs Hs'); [reflexivity|].
    unfold strip_quotes. cbv beta iota. rewrite Hq.
    change (c :: r' ++ [c']) with ((c :: r') ++ [c']).
    apply strip_last_quote_keeps, Hq'.
Qed.

(** C10, as the code has it: a line with more than one '=' has the form
    key=value=rest with no '=' in key and value, value being the text between
    the first and the second '=', and both launchers treat it exactly as the
    line key=value: what follows the second '=' is discarded.  When key or
    value is empty, or the key is __proto__, nothing is recorded.  Otherwise
    the entry recorded under the trimmed key is the trimmed value, in [Alt]
    without its outer quotes; it is the text between the first and the
    second '=' itself when that text neither starts nor ends with white space
    or, in [Alt], with a quote. *)
Theorem C10_second_equals_truncates
    (v : variant) (env : gmap jsstring jsstring) (line : jsstring) :
  1 < equals_signs line ->
  exists key value rest,
    line = key ++ code_eq :: value ++ code_eq :: rest /\
    (code_eq ∉ key) /\ (code_eq ∉ value) /\
    between_equals line = value /\
    env_line v env line = env_line v env (key ++ code_eq :: value) /\
    (key = [] \/ value = [] \/ trim key = lit "__proto__" ->
     env_line v env line = env) /\
    (key <> [] -> value <> [] -> trim key <> lit "__proto__" ->
     env_line v env line
     = <[trim key := match v with
                     | Bin => trim value
                     | Alt => strip_quotes (trim value)
                     end]> env /\
     forall c c',
       head value = Some c -> last value = Some c' ->
       end_removed v c = false -> end_removed v c' = false ->
       env_line v env line = <[trim key := value]> env).
Proof.
  intros Htwo.
  destruct (first_equals line) as (key & tail & Hkey & -> & Hcount); [lia|].
  destruct (first_equals tail) as (value & rest & Hvalue & -> & _); [lia|].
  exists key, value, rest. split; [reflexivity|].
  split; [exact Hkey|]. split; [exact Hvalue|].
  split.
  { unfold between_equals. rewrite (after_equals_app _ _ Hkey).
    apply until_equals_app, Hvalue. }
  rewrite (env_line_second_equals v env key value rest Hkey Hvalue).
  split; [reflexivity|]. split.
  - apply env_line_records_nothing; assumption.
  - intros Hk0 Hv0 Hproto.
    rewrite (env_line_records v env key value Hkey Hvalue Hk0 Hv0 Hproto).
    split; [destruct v; reflexivity|].
    intros c c' Hhead Hlast Hc Hc'.
    rewrite (env_value_plain_ends v value c c' Hhead Hlast Hc Hc').
    reflexivity.
Qed.

Lemma C10_witness :
  let line := lit "KEY=a=b" in
  1 < equals_signs line /\
  between_equals line = lit "a" /\
  forall v, env_line v ∅ line = <[lit "KEY" := lit "a"]> ∅.
Proof.
  intros line.
  assert (Htwo : 1 < equals_signs line) by (vm_compute; lia).
  split; [exact Htwo|]. split; [reflexivity|].
  intros v.
  destruct (C10_second_equals_truncates v ∅ line Htwo)
    as (key & value & rest & Hline & Hkey & Hvalue & Hbetween & _ & _ & Hrec).
  assert (Hk : key = lit "KEY").
  { pose proof (f_equal until_equals Hline) as E.
    rewrite (until_equals_app _ _ Hkey) in E. symmetry. exact E. }
  assert (Hv : value = lit "a") by (rewrite <- Hbetween; reflexivity).
  subst key value.
  destruct Hrec as (_ & Hplain); try discriminate.
  apply (Hplain 97%N 97%N); destruct v; reflexivity.
Defined.

(** C10 as stated fails on a quoted value and on an empty one.  On the
    line K='a=b' the text between the first and the second '=' is the quote
    followed by a, and [Alt] records a without the quote.  On the line KEY==v
    that text is empty and neither launcher records anything. *)
Lemma C10_counterexample :
  let quoted := lit "K='a=b'" in
  let empty := lit "KEY==v" in
  1 < equals_signs quoted /\
  between_equals quoted = lit "'a" /\
  env_line Alt ∅ quoted !! lit "K" = Some (lit "a") /\
  env_line Alt ∅ quoted !! lit "K" <> Some (between_equals quoted) /\
  1 < equals_signs empty /\
  between_equals empty = [] /\
  forall v, env_line v ∅ empty = ∅.
Proof.
  intros quoted empty.
  split; [vm_compute; lia|]. split; [reflexivity|].
  split; [reflexivity|]. split; [vm_compute; intros H; discriminate H|].
  split; [vm_compute; lia|]. split; [reflexivity|].
  intros [|]; reflexivity.
Qed.

Example env_line_two_equals v :
  env_line v ∅ (lit "KEY=a=b") = {[ lit "KEY" := lit "a" ]}.
Proof. destruct v; reflexivity. Qed.

(** * Further properties of the scripts *)

(** ** Resolution with the fallback *)

Lemma checkPython_fallback w :
  failed_query
    (child w python (version_query (lit "python3")) (Options pipes None)) ->
  child w pythonAlt (version_query (lit "python")) (Options pipes None)
  = Closed (Some 0%Z) ->
  exists t, checkPython w = (t, Normal (lit "python")).
Proof.
  intros H3 H. unfold_checkPython. rewrite H.
  destruct (child w python _ _) as [code|msg errno]; simpl in H3;
    rewrite ?H3; eexists; reflexivity.
Qed.

Lemma checkPython_fallbacks w :
  length (spawned python (trace (checkPython w))) = 1 /\
  length (spawned pythonAlt (trace (checkPython w)))
  = fallbacks_started
      (child w python (version_query (lit "python3")) (Options pipes None)).
Proof.
  unfold_checkPython.
  destruct (child w python _ _) as [code|msg errno]; cbn;
    repeat (world_case; cbn); split; reflexivity.
Qed.

(** X1: when the version query of python3 fails (it closes with a code
    other than 0, or cannot be started) and the one of python closes with
    code 0, [checkPython] resolves to python, and the installer and the
    server of the run are started with python.  The fallback is started once
    when python3 ran, and twice when python3 could not be started: once by
    the 'error' listener and once by the 'close' listener of [python], which
    Node both calls. *)
Theorem X1_checkPython_fallback_resolves (w : world) :
  failed_query
    (child w python (version_query (lit "python3")) (Options pipes None)) ->
  child w pythonAlt (version_query (lit "python")) (Options pipes None)
  = Closed (Some 0%Z) ->
  result (checkPython w) = Normal (lit "python") /\
  length (spawned pythonAlt (trace (checkPython w)))
  = match child w python (version_query (lit "python3"))
            (Options pipes None) with
    | Closed _ => 1
    | Failed _ _ => 2
    end /\
  forall v h c o,
    In (Spawn h c o) (trace (launcher w v)) ->
    h = pip \/ h = server -> file c = lit "python".
Proof.
  intros H3 H.
  destruct (checkPython_fallback w H3 H) as (t & Hpy).
  pose proof (checkPython_fallbacks w) as (_ & Hlen).
  pose proof (checkPython_footprint w) as (Hpip & Hsrv & _).
  rewrite Hpy in Hpip, Hsrv |- *. simpl in Hpip, Hsrv.
  split; [reflexivity|]. split.
  - rewrite Hpy in Hlen. rewrite Hlen.
    destruct (child w python _ _) as [code|msg errno]; [|reflexivity].
    simpl in H3 |- *. rewrite H3. reflexivity.
  - intros v h c o Hin Hh. apply in_spawned in Hin. revert Hin.
    destruct Hh as [-> | ->];
      destruct v; run; observe; rewrite ?Hpip, ?Hsrv; members; reflexivity.
Qed.

Lemma X1_witness :
  let w := plain_world (fun h => match h with
                                 | python =>
                                     Failed (lit "spawn python3 ENOENT") 2
                                 | _ => Closed (Some 0%Z)
                                 end) in
  failed_query
    (child w python (version_query (lit "python3")) (Options pipes None)) /\
  child w pythonAlt (version_query (lit "python")) (Options pipes None)
  = Closed (Some 0%Z) /\
  result (checkPython w) = Normal (lit "python") /\
  length (spawned pythonAlt (trace (checkPython w))) = 2.
Proof.
  intros w. split; [exact I|]. split; [reflexivity|].
  destruct (X1_checkPython_fallback_resolves w I eq_refl) as (Hres & Hlen & _).
  split; [exact Hres | exact Hlen].
Defined.



(** ** Failures of the installer *)

Lemma installDependencies_throws w v pythonCmd :
  existsSync w (requirementsPath w) = true ->
  failed_query (child w pip (pip_install pythonCmd (requirementsPath w))
                (Options (pip_stdio v) None)) ->
  result (installDependencies w v pythonCmd (srcDir w))
  = Throw (install_error
             (child w pip (pip_install pythonCmd (requirementsPath w))
                (Options (pip_stdio v) None))).
Proof.
  unfold requirementsPath, installDependencies, spawn, both_listeners,
    pip_stdio.
  intros -> Hfail.
  destruct v; cbn;
    destruct (child w pip _ _) as [code|msg errno]; simpl in Hfail;
    cbn; rewrite ?Hfail; reflexivity.
Qed.

(** X3: in a run with --install in which the manifest exists, an
    installer that closes with a code other than 0 or cannot be started ends
    the run: no server is spawned, the error of the installer is the last
    thing logged, and the launcher exits with status 1. *)
Theorem X3_installer_failure_ends_run
    (w : world) (v : variant) (pythonCmd : jsstring) :
  help_requested w = false ->
  existsSync w (serverPath w) = true ->
  result (checkPython w) = Normal pythonCmd ->
  shouldInstall w = true ->
  existsSync w (requirementsPath w) = true ->
  failed_query (child w pip (pip_install pythonCmd (requirementsPath w))
                (Options (pip_stdio v) None)) ->
  spawned server (trace (launcher w v)) = [] /\
  result (launcher w v) = Exit 1 /\
  exists t,
    trace (launcher w v)
    = t ++ [Write (log_stream v)
              (ErrorLine
                 (install_error
                    (child w pip
                       (pip_install pythonCmd (requirementsPath w))
                       (Options (pip_stdio v) None))))].
Proof.
  intros Hhelp Hentry Hpy Hinst Hman Hfail.
  pose proof (installDependencies_throws w v pythonCmd Hman Hfail) as Hthrow.
  pose proof (fails_throws w v _
                (fails_installation w v _ pythonCmd Hentry Hpy Hinst Hthrow))
    as Hbody.
  split.
  - clear Hthrow Hbody. unfold requirementsPath, pip_stdio in *.
    pose proof (checkPython_footprint w) as (_ & Hsrv & _).
    destruct (checkPython w) as [tpy r] eqn:E. simpl in Hpy, Hsrv. subst r.
    revert Hfail.
    destruct v; run; observe; rewrite ?Hsrv; simpl; try reflexivity;
      congruence.
  - unfold launcher. rewrite Hhelp, (main_catches w v _ Hbody).
    split; [reflexivity | eexists; reflexivity].
Qed.

Lemma X3_witness :
  let w := posix_world [lit "--install"] [server_py; requirements_txt] []
             (fun h => match h with
                       | pip => Closed (Some 2%Z)
                       | _ => Closed (Some 0%Z)
                       end) [] in
  failed_query (child w pip (pip_install (lit "python3") (requirementsPath w))
       (Options (pip_stdio Bin) None))
  /\ spawned server (trace (launcher w Bin)) = []
  /\ result (launcher w Bin) = Exit 1.
Proof.
  intros w. split; [reflexivity|].
  destruct (X3_installer_failure_ends_run w Bin (lit "python3")
              eq_refl eq_refl eq_refl eq_refl eq_refl eq_refl)
    as (Hsrv & Hres & _).
  split; [exact Hsrv | exact Hres].
Defined.

(** X4: the installer is started only on request.  When neither --install
    nor -i is among the arguments after the script path, no installer is
    spawned, whether or not the manifest exists. *)
Theorem X4_no_flag_no_installer (w : world) (v : variant) :
  lit "--install" ∉ cli_args w -> lit "-i" ∉ cli_args w ->
  spawned pip (trace (launcher w v)) = [].
Proof.
  intros H1 H2.
  assert (Hinst : shouldInstall w = false).
  { unfold shouldInstall, includes.
    rewrite !bool_decide_eq_false_2 by assumption. reflexivity. }
  pose proof (checkPython_footprint w) as (Hpip & _).
  destruct (checkPython w) as [tpy r] eqn:E. simpl in Hpip.
  destruct v; run; observe; rewrite ?Hpip; reflexivity.
Qed.

Lemma X4_witness :
  let w := posix_world [lit "--port"; lit "1"] [server_py; requirements_txt]
             [] all_fine [] in
  (lit "--install" ∉ cli_args w) /\ (lit "-i" ∉ cli_args w) /\
  spawned pip (trace (launcher w Alt)) = [].
Proof.
  intros w.
  assert (H1 : lit "--install" ∉ cli_args w)
    by (apply (bool_decide_eq_false_1 (lit "--install" ∈ cli_args w));
        reflexivity).
  assert (H2 : lit "-i" ∉ cli_args w)
    by (apply (bool_decide_eq_false_1 (lit "-i" ∈ cli_args w)); reflexivity).
  split; [exact H1|]. split; [exact H2|].
  exact (X4_no_flag_no_installer w Alt H1 H2).
Defined.

(** ** The interpreter of the run *)

(** X5: the installer and the server are started with the command that
    [checkPython] resolved, and with no other: a [pip] or [server] child in
    the trace means that resolution succeeded with the file of that child. *)
Theorem X5_children_use_resolved_interpreter
    (w : world) (v : variant) (h : handle) (c : command) (o : spawn_options) :
  In (Spawn h c o) (trace (launcher w v)) ->
  h = pip \/ h = server ->
  result (checkPython w) = Normal (file c).
Proof.
  intros Hin Hh. apply in_spawned in Hin. revert Hin.
  pose proof (checkPython_footprint w) as (Hpip & Hsrv & _).
  destruct (checkPython w) as [tpy r] eqn:E. simpl in Hpip, Hsrv.
  destruct Hh as [-> | ->];
    destruct v; run; observe; rewrite ?Hpip, ?Hsrv; members; reflexivity.
Qed.

Lemma X5_witness :
  let w := plain_world all_fine in
  let c := Command (lit "python3") [server_py] in
  let o := Options inherit
             (Some (server_env w Alt ∅)) in
  In (Spawn server c o) (trace (launcher w Alt)) /\
  result (checkPython w) = Normal (lit "python3").
Proof.
  intros w c o.
  assert (Hin : In (Spawn server c o) (trace (launcher w Alt)))
    by (vm_compute; tauto).
  split; [exact Hin|].
  exact (X5_children_use_resolved_interpreter w Alt server c o Hin
           (or_intror eq_refl)).
Defined.

(** ** How a run ends *)

Lemma launcher_success_server w v :
  help_requested w = false ->
  result (launcher w v) = Normal tt ->
  exists c o,
    In (Spawn server c o) (trace (launcher w v)) /\
    child w server c o = Closed (Some 0%Z).
Proof.
  intros Hhelp. destruct (checkPython w) as [tpy r] eqn:E.
  destruct v; run; try discriminate; intros _;
    repeat match goal with
           | H : is_zero _ = true |- _ => apply is_zero_true in H; subst
           end;
    (eexists; eexists; split; [find_event | eassumption]).
Qed.

Lemma checkPython_settles w :
  (exists cmd, result (checkPython w) = Normal cmd) \/
  result (checkPython w) = Throw PythonNotFound \/
  exists msg, result (checkPython w) = Uncaught (UnhandledError msg).
Proof.
  unfold_checkPython. repeat (world_case; cbn); eauto.
Qed.

Lemma launcher_not_exit_zero w v :
  help_requested w = false -> result (launcher w v) <> Exit 0.
Proof.
  intros Hhelp. pose proof (checkPython_settles w) as Hpy.
  destruct (checkPython w) as [tpy r] eqn:E. simpl in Hpy.
  destruct Hpy as [[cmd ->] | [-> | [msg ->]]];
    destruct v; run; discriminate.
Qed.

Lemma launcher_settles w v :
  result (launcher w v) = Normal tt \/
  result (launcher w v) = Exit 0 \/
  result (launcher w v) = Exit 1 \/
  exists msg, result (launcher w v) = Uncaught (UnhandledError msg).
Proof.
  pose proof (checkPython_settles w) as Hpy.
  destruct (checkPython w) as [tpy r] eqn:E. simpl in Hpy.
  destruct Hpy as [[cmd ->] | [-> | [msg ->]]];
    destruct v; run; eauto.
Qed.

Lemma exit_zero_server w v :
  help_requested w = false ->
  exit_status (result (launcher w v)) = Some 0%Z ->
  exists c o,
    In (Spawn server c o) (trace (launcher w v)) /\
    child w server c o = Closed (Some 0%Z).
Proof.
  intros Hhelp Hzero. apply launcher_success_server; [exact Hhelp|].
  destruct (launcher_settles w v) as [H | [H | [H | [msg H]]]];
    rewrite H in Hzero |- *; try discriminate Hzero; try reflexivity.
  destruct (launcher_not_exit_zero w v Hhelp H).
Qed.

(** The only error without listener is that of a fallback interpreter
    that cannot be started. *)
Lemma checkPython_uncaught w e :
  result (checkPython w) = Uncaught e ->
  exists msg errno,
    child w pythonAlt (version_query (lit "python")) (Options pipes None)
    = Failed msg errno /\
    e = UnhandledError msg.
Proof.
  unfold_checkPython. repeat (world_case; cbn); intros H;
    try discriminate H; injection H as <-; eauto.
Qed.

Lemma launcher_uncaught w v e :
  result (launcher w v) = Uncaught e -> result (checkPython w) = Uncaught e.
Proof.
  destruct (checkPython w) as [tpy r] eqn:E.
  destruct v; run; intros H; try discriminate H;
    injection H as <-; reflexivity.
Qed.

(** X6: how a run ends.  The launcher ends with status 0 exactly when a
    help flag was given or the server child was spawned and closed with
    code 0.  Every other run ends with status 1: in [process.exit(1)], or in
    an 'error' event without listener, which happens only when the fallback
    interpreter cannot be started.  No error escapes the [try] of [main]. *)
Theorem X6_exit_status (w : world) (v : variant) :
  (exit_status (result (launcher w v)) = Some 0%Z <->
   help_requested w = true \/
   exists c o,
     In (Spawn server c o) (trace (launcher w v)) /\
     child w server c o = Closed (Some 0%Z)) /\
  (exit_status (result (launcher w v)) = Some 0%Z \/
   exit_status (result (launcher w v)) = Some 1%Z) /\
  (forall e, result (launcher w v) <> Throw e) /\
  (forall e,
     result (launcher w v) = Uncaught e ->
     exists msg errno,
       child w pythonAlt (version_query (lit "python")) (Options pipes None)
       = Failed msg errno /\
       e = UnhandledError msg).
Proof.
  split; [|split; [|split]].
  - split.
    + intros Hzero. destruct (help_requested w) eqn:Hhelp; [left; reflexivity|].
      right. exact (exit_zero_server w v Hhelp Hzero).
    + intros [Hhelp | (c & o & Hin & Hc)].
      * unfold launcher. rewrite Hhelp. destruct v; reflexivity.
      * exact (server_zero_exit_zero w v c o Hin Hc).
  - destruct (launcher_settles w v) as [H | [H | [H | [msg H]]]];
      rewrite H; simpl; eauto.
  - intros e He.
    destruct (launcher_settles w v) as [H | [H | [H | [msg H]]]];
      rewrite H in He; discriminate He.
  - intros e He. apply checkPython_uncaught.
    exact (launcher_uncaught w v e He).
Qed.

Lemma X6_witness :
  let w := plain_world all_fine in
  exit_status (result (launcher w Bin)) = Some 0%Z /\
  (help_requested w = true \/
   exists c o,
     In (Spawn server c o) (trace (launcher w Bin)) /\
     child w server c o = Closed (Some 0%Z)).
Proof.
  intros w. split; [reflexivity|].
  exact (proj1 (proj1 (X6_exit_status w Bin)) eq_refl).
Defined.

(** ** The environment of the server *)

(** X7: the environment the server is spawned with.  A variable of the
    .env overlay overrides the inherited one, every other inherited variable
    is passed on, and [Alt] sets PYTHONUNBUFFERED to 1 whatever the two say;
    the stdio of the server is piped in [Bin] and inherited in [Alt]. *)
Theorem X7_server_environment
    (w : world) (v : variant) (c : command) (o : spawn_options) :
  In (Spawn server c o) (trace (launcher w v)) ->
  exists e,
    env o = Some e /\
    stdio o = match v with Bin => pipes | Alt => inherit end /\
    (forall k,
       v = Alt -> k = lit "PYTHONUNBUFFERED" -> e !! k = Some (lit "1")) /\
    (forall k,
       (v = Alt -> k <> lit "PYTHONUNBUFFERED") ->
       e !! k = match loaded_overlay w v !! k with
                | Some x => Some x
                | None => process_env w !! k
                end).
Proof.
  intros Hin. apply in_spawned in Hin. revert Hin.
  pose proof (checkPython_footprint w) as (_ & Hsrv & _).
  destruct (checkPython w) as [tpy r] eqn:E. simpl in Hsrv.
  unfold loaded_overlay.
  destruct v; run; observe; rewrite ?Hsrv; members;
    (eexists; split; [reflexivity|]; split; [reflexivity|]; split;
     [ intros k Hv Hk; try discriminate Hv; subst k;
       unfold server_env; apply lookup_insert_eq
     | intros k Hk; unfold server_env;
       rewrite ?lookup_insert_ne by (apply not_eq_sym, Hk; reflexivity);
       rewrite lookup_union;
       destruct (_ !! k) eqn:Hov; destruct (process_env w !! k);
       reflexivity ]).
Qed.

Lemma X7_witness :
  let w := posix_world [] [server_py; dotenv_path] (lit "PATH=/opt/bin")
             all_fine [] in
  let e := server_env w Bin (parse_env Bin (lit "PATH=/opt/bin")) in
  let o := Options pipes (Some e) in
  In (Spawn server (Command (lit "python3") [server_py]) o)
     (trace (launcher w Bin)) /\
  e !! lit "PATH" = Some (lit "/opt/bin").
Proof.
  intros w e o.
  assert (Hin : In (Spawn server (Command (lit "python3") [server_py]) o)
                   (trace (launcher w Bin))) by (vm_compute; tauto).
  split; [exact Hin|].
  destruct (X7_server_environment w Bin _ _ Hin) as (e' & He & _ & _ & Hk).
  injection He as <-. rewrite Hk by discriminate. reflexivity.
Defined.

(** X8: a .env file that exists but cannot be read.  [Bin] does not catch
    the exception of [readFileSync]: it never spawns the server, and a run
    without help flag does not end with status 0.  [Alt] catches it: it logs
    the error and spawns the server with the inherited environment and
    PYTHONUNBUFFERED alone. *)
Theorem X8_unreadable_env_file (w : world) (msg : jsstring) :
  existsSync w (envPath w) = true ->
  readFileSync w (envPath w) = inr msg ->
  spawned server (trace (launcher w Bin)) = [] /\
  (help_requested w = false ->
   exit_status (result (launcher w Bin)) <> Some 0%Z) /\
  forall c o,
    In (Spawn server c o) (trace (launcher w Alt)) ->
    env o = Some (<[lit "PYTHONUNBUFFERED" := lit "1"]> (process_env w)) /\
    In (Write Stderr (EnvReadError msg)) (trace (launcher w Alt)).
Proof.
  unfold envPath. intros Hex Hread.
  pose proof (checkPython_footprint w) as (_ & Hsrv & _).
  assert (Hbin : spawned server (trace (launcher w Bin)) = []).
  { destruct (checkPython w) as [tpy r] eqn:E. simpl in Hsrv.
    run; observe; rewrite ?Hsrv; reflexivity. }
  split; [exact Hbin|]. split.
  - intros Hhelp Hzero.
    destruct (exit_zero_server w Bin Hhelp Hzero) as (c & o & Hin & _).
    apply in_spawned in Hin. rewrite Hbin in Hin. destruct Hin.
  - intros c o Hin. split.
    + apply in_spawned in Hin. revert Hin.
      destruct (checkPython w) as [tpy r] eqn:E. simpl in Hsrv.
      run; observe; rewrite ?Hsrv; members.
      all: unfold server_env; rewrite (left_id_L ∅ (∪)); reflexivity.
    + apply in_spawned in Hin. revert Hin.
      destruct (checkPython w) as [tpy r] eqn:E. simpl in Hsrv.
      run; observe; rewrite ?Hsrv; members; find_event.
Qed.

Lemma X8_witness :
  let w := {| argv := [lit "node"; lit "launcher.js"];
              dirname := lit "/pkg/bin"; cwd := lit "/work";
              process_env := ∅;
              path_join := fun a b => a ++ lit "/" ++ b;
              path_dirname := fun _ => lit "/pkg";
              existsSync := fun _ => true;
              readFileSync := fun _ => inr (lit "EACCES");
              child := fun _ _ _ => Closed (Some 0%Z);
              signals := [] |} in
  existsSync w (envPath w) = true /\
  readFileSync w (envPath w) = inr (lit "EACCES") /\
  spawned server (trace (launcher w Bin)) = [] /\
  exit_status (result (launcher w Bin)) <> Some 0%Z.
Proof.
  intros w. split; [reflexivity|]. split; [reflexivity|].
  destruct (X8_unreadable_env_file w (lit "EACCES") eq_refl eq_refl)
    as (Hsrv & Hexit & _).
  split; [exact Hsrv | exact (Hexit eq_refl)].
Defined.

(** ** What a line of the .env file assigns *)

Lemma env_line_assigns v env line k :
  line_key line = Some k -> k <> lit "__proto__" ->
  exists x, line_value v line = Some x /\
            env_line v env line = <[k := x]> env.
Proof.
  unfold line_key, line_value, env_line.
  destruct (split code_eq line !! 0%nat) as [key|]; [|discriminate].
  destruct (split code_eq line !! 1%nat) as [value|]; [|discriminate].
  destruct (truthy (Some key) && truthy (Some value)); [|discriminate].
  intros [= <-] Hproto. eexists. split; [reflexivity|].
  unfold set_property. rewrite decide_False by exact Hproto. reflexivity.
Qed.

Lemma env_line_preserves v env line k :
  env_line v env line !! k = env !! k \/
  line_key line = Some k /\ k <> lit "__proto__" /\
  env_line v env line !! k = line_value v line.
Proof.
  destruct (decide (line_key line = Some k)) as [Hk | Hk].
  - destruct (decide (k = lit "__proto__")) as [-> | Hproto].
    + left. revert Hk. unfold line_key, env_line.
      destruct (split code_eq line !! 0%nat) as [key|]; [|discriminate].
      destruct (split code_eq line !! 1%nat) as [value|]; [|discriminate].
      destruct (truthy (Some key) && truthy (Some value)); [|discriminate].
      intros [= Hk]. unfold set_property. rewrite decide_True by exact Hk.
      reflexivity.
    + right. split; [exact Hk|]. split; [exact Hproto|].
      destruct (env_line_assigns v env line k Hk Hproto) as (x & -> & ->).
      apply lookup_insert_eq.
  - left. apply env_line_other_key, Hk.
Qed.

Lemma line_key_trimmed line k : line_key line = Some k -> trim k = k.
Proof.
  unfold line_key.
  destruct (split code_eq line !! 0%nat) as [key|]; [|discriminate].
  destruct (split code_eq line !! 1%nat) as [value|]; [|discriminate].
  destruct (truthy (Some key) && truthy (Some value)); [|discriminate].
  intros [= <-]. apply trim_idempotent.
Qed.

Lemma fold_env_line_origin v ls env k x :
  fold_left (env_line v) ls env !! k = Some x ->
  env !! k = Some x \/
  exists line, line ∈ ls /\ line_key line = Some k /\
               k <> lit "__proto__" /\ line_value v line = Some x.
Proof.
  revert env. induction ls as [|l ls IH]; intros env; simpl; [auto|].
  intros H. destruct (IH _ H) as [Hl | (line & Hin & Hrest)].
  - destruct (env_line_preserves v env l k) as [Heq | (Hk & Hproto & Heq)].
    + left. rewrite <- Heq. exact Hl.
    + right. exists l. split; [left|]. split; [exact Hk|].
      split; [exact Hproto|]. rewrite <- Heq. exact Hl.
  - right. exists line. split; [right; exact Hin | exact Hrest].
Qed.

(** X9: the last assignment wins.  The overlay maps a key to the value of
    the last line of the file that assigns it. *)
Theorem X9_last_assignment_wins
    (v : variant) (content : jsstring) (before_ : list jsstring)
    (line : jsstring) (after_ : list jsstring) (k : jsstring) :
  lines content = before_ ++ line :: after_ ->
  line_key line = Some k -> k <> lit "__proto__" ->
  (forall l, l ∈ after_ -> line_key l <> Some k) ->
  parse_env v content !! k = line_value v line.
Proof.
  unfold parse_env, lines. intros -> Hk Hproto Hafter.
  rewrite fold_left_app. simpl.
  rewrite (fold_env_line_other_keys v after_ _ _ Hafter).
  destruct (env_line_assigns v (fold_left (env_line v) before_ ∅) line k
              Hk Hproto) as (x & -> & ->).
  apply lookup_insert_eq.
Qed.

Lemma X9_witness :
  let content := lit "A=1" ++ [code_nl] ++ lit "B=2" ++ [code_nl]
                 ++ lit " A = 3 " in
  lines content = [lit "A=1"; lit "B=2"] ++ lit " A = 3 " :: [] /\
  line_key (lit " A = 3 ") = Some (lit "A") /\
  parse_env Bin content !! lit "A" = Some (lit "3").
Proof.
  intros content. split; [reflexivity|]. split; [reflexivity|].
  rewrite (X9_last_assignment_wins Bin content [lit "A=1"; lit "B=2"]
             (lit " A = 3 ") [] (lit "A") eq_refl eq_refl);
    [reflexivity | discriminate | intros l Hl; inversion Hl].
Defined.

(** X10: the overlay holds nothing the file does not say.  Every entry
    comes from a line of the file that assigns its key that value; its key
    is trimmed and is never __proto__. *)
Theorem X10_overlay_entries_come_from_lines
    (v : variant) (content k x : jsstring) :
  parse_env v content !! k = Some x ->
  trim k = k /\ k <> lit "__proto__" /\
  exists line,
    line ∈ lines content /\ line_key line = Some k /\
    line_value v line = Some x.
Proof.
  unfold parse_env, lines. intros H.
  destruct (fold_env_line_origin v _ _ _ _ H)
    as [Hempty | (line & Hin & Hk & Hproto & Hx)].
  - rewrite lookup_empty in Hempty. discriminate.
  - split; [exact (line_key_trimmed line k Hk)|]. split; [exact Hproto|].
    exists line. auto.
Qed.

Lemma X10_witness :
  let content := lit "A=1" ++ [code_nl] ++ lit "B = two" in
  parse_env Alt content !! lit "B" = Some (lit "two") /\
  exists line,
    line ∈ lines content /\ line_key line = Some (lit "B") /\
    line_value Alt line = Some (lit "two").
Proof.
  intros content.
  assert (H : parse_env Alt content !! lit "B" = Some (lit "two"))
    by reflexivity.
  split; [exact H|].
  exact (proj2 (proj2 (X10_overlay_entries_come_from_lines Alt content _ _ H))).
Defined.

(** ** Splitting and joining *)

Lemma join_cons sep piece pieces :
  pieces <> [] -> join sep (piece :: pieces) = piece ++ sep :: join sep pieces.
Proof. destruct pieces; [contradiction | reflexivity]. Qed.

Lemma join_split sep s : join sep (split sep s) = s.
Proof.
  induction s as [|c s IH]; [reflexivity|]. simpl.
  pose proof (split_not_nil sep s) as Hne.
  destruct (N.eqb_spec c sep) as [-> | _].
  - rewrite (join_cons _ _ _ Hne), IH. reflexivity.
  - destruct (split sep s) as [|piece pieces]; [contradiction|].
    destruct pieces as [|p pieces]; simpl in *; rewrite <- IH; reflexivity.
Qed.

Lemma split_pieces_free sep s : Forall (fun piece => sep ∉ piece) (split sep s).
Proof.
  induction s as [|c s IH]; simpl.
  - constructor; [apply not_elem_of_nil | constructor].
  - destruct (N.eqb_spec c sep) as [-> | Hne].
    + constructor; [apply not_elem_of_nil | exact IH].
    + destruct (split sep s) as [|piece pieces]; simpl.
      * constructor; [|constructor].
        apply not_elem_of_cons. split; [congruence | apply not_elem_of_nil].
      * inversion IH as [|? ? Hp Hps]; subst. constructor; [|exact Hps].
        apply not_elem_of_cons. split; [congruence | exact Hp].
Qed.

Lemma split_join sep pieces :
  pieces <> [] -> Forall (fun piece => sep ∉ piece) pieces ->
  split sep (join sep pieces) = pieces.
Proof.
  induction pieces as [|piece pieces IH]; [contradiction|].
  intros _ Hall. inversion Hall as [|? ? Hp Hps]; subst.
  destruct pieces as [|p pieces].
  - simpl. apply split_no_sep, Hp.
  - rewrite join_cons by discriminate.
    rewrite (split_app_sep _ _ _ Hp), IH; [reflexivity | discriminate | exact Hps].
Qed.

(** ** White space at the end of a line *)

Lemma split_snoc_other sep s c :
  c <> sep ->
  exists pieces piece,
    split sep s = pieces ++ [piece] /\
    split sep (s ++ [c]) = pieces ++ [piece ++ [c]].
Proof.
  intros Hc. induction s as [|a s (pieces & piece & Hs & Hsc)]; simpl.
  - destruct (N.eqb_spec c sep); [contradiction|].
    exists [], []. split; reflexivity.
  - destruct (N.eqb a sep).
    + exists ([] :: pieces), piece. rewrite Hs, Hsc. split; reflexivity.
    + rewrite Hs, Hsc. destruct pieces as [|p pieces]; simpl.
      * exists [], (a :: piece). split; reflexivity.
      * exists ((a :: p) :: pieces), piece. split; reflexivity.
Qed.

Lemma space_not_equals c : is_space c = true -> c <> code_eq.
Proof. intros Hc ->. discriminate Hc. Qed.

Lemma env_value_snoc_space v value c :
  is_space c = true -> env_value v (value ++ [c]) = env_value v value.
Proof.
  intros Hc. unfold env_value. rewrite (trim_snoc_space _ _ Hc). reflexivity.
Qed.

(** X11: white space at the end of a line, such as the carriage return
    of a CRLF file.  It changes nothing of what the line contributes, with
    one exception: a line that ends right after its only '=' (key=)
    contributes nothing, but followed by a white space character the value
    is truthy before it is trimmed, and the key is recorded with the empty
    string. *)
Theorem X11_trailing_white_space
    (v : variant) (env : gmap jsstring jsstring) (c : N) :
  is_space c = true ->
  (forall line,
     (forall key, key <> [] -> code_eq ∉ key -> line <> key ++ [code_eq]) ->
     env_line v env (line ++ [c]) = env_line v env line) /\
  (forall key,
     key <> [] -> code_eq ∉ key -> trim key <> lit "__proto__" ->
     env_line v env (key ++ [code_eq]) = env /\
     env_line v env ((key ++ [code_eq]) ++ [c]) = <[trim key := []]> env).
Proof.
  intros Hc. pose proof (space_not_equals c Hc) as Hne. split.
  - intros line Hline. unfold env_line.
    destruct (split_snoc_other code_eq line c Hne)
      as (pieces & piece & Hs & ->).
    pose proof (join_split code_eq line) as Hjoin.
    pose proof (split_pieces_free code_eq line) as Hfree.
    rewrite Hs in Hjoin, Hfree |- *.
    destruct pieces as [|key [|value pieces]]; simpl.
    + reflexivity.
    + (* one '=': the value is the last piece *)
      destruct key as [|k key]; [reflexivity|].
      destruct piece as [|p piece]; simpl.
      * exfalso. apply (Hline (k :: key)); [discriminate | |].
        -- inversion Hfree; assumption.
        -- symmetry. exact Hjoin.
      * rewrite <- (env_value_snoc_space v (p :: piece) c Hc). reflexivity.
    + reflexivity.
  - intros key Hkey Hnokey Hproto. split.
    + apply env_line_malformed, malformed_no_value, Hnokey.
    + rewrite <- app_assoc. simpl.
      assert (Hv : code_eq ∉ [c]).
      { intros Hin. apply list_elem_of_singleton in Hin. congruence. }
      rewrite (env_line_records v env key [c] Hnokey Hv Hkey) by
        (discriminate || exact Hproto).
      f_equal. unfold env_value.
      replace (trim [c]) with (@nil N)
        by (unfold trim; simpl; rewrite Hc; reflexivity).
      destruct v; reflexivity.
Qed.

Lemma X11_witness :
  let cr : N := 13%N in
  is_space cr = true /\
  (forall v, env_line v ∅ (lit "KEY=value" ++ [cr])
             = env_line v ∅ (lit "KEY=value")) /\
  (forall v, env_line v ∅ (lit "KEY=" ++ [cr]) = {[ lit "KEY" := [] ]}).
Proof.
  intros cr.
  assert (Hcr : is_space cr = true) by reflexivity.
  split; [exact Hcr|]. split; intros v.
  - apply (proj1 (X11_trailing_white_space v ∅ cr Hcr)).
    intros key _ _ Heq. apply (f_equal (@rev N)) in Heq.
    rewrite rev_app_distr in Heq. vm_compute in Heq. discriminate Heq.
  - assert (Hkey : code_eq ∉ lit "KEY")
      by (apply (bool_decide_eq_false_1 (code_eq ∈ _)); reflexivity).
    destruct (proj2 (X11_trailing_white_space v ∅ cr Hcr) (lit "KEY"))
      as [_ Hrec]; [discriminate | exact Hkey | discriminate |].
    exact Hrec.
Defined.

(** ** Quotes around a value *)

Lemma strip_last_quote_snoc s q :
  is_quote q = true -> strip_last_quote (s ++ [q]) = s.
Proof.
  intros Hq. induction s as [|c s IH]; simpl.
  - rewrite Hq. reflexivity.
  - rewrite IH. destruct (s ++ [q]) eqn:E; [|reflexivity].
    destruct s; discriminate E.
Qed.

Lemma strip_last_quote_length s :
  length s <= S (length (strip_last_quote s)).
Proof.
  induction s as [|c [|c' s] IH]; simpl in *.
  - lia.
  - destruct (is_quote c); simpl; lia.
  - lia.
Qed.

Lemma quote_not_space q : is_quote q = true -> is_space q = false.
Proof.
  unfold is_quote, code_dq, code_sq. intros Hq.
  apply orb_true_iff in Hq as [Hq | Hq]; apply N.eqb_eq in Hq; subst;
    reflexivity.
Qed.

(** X12: quotes around a value.  [Alt] removes one quote character at
    each end of the trimmed value, also when the two differ, and a quote at
    one end alone; [Bin] keeps them.  [Alt] removes at most these two
    characters, and none from a value whose ends are no quotes. *)
Theorem X12_quotes_around_a_value (s : jsstring) (q q' : N) :
  is_quote q = true -> is_quote q' = true ->
  env_value Alt (q :: s ++ [q']) = s /\
  env_value Bin (q :: s ++ [q']) = q :: s ++ [q'] /\
  (forall c : N,
     is_quote c = false ->
     strip_quotes (q :: s ++ [c]) = s ++ [c] /\
     strip_quotes (c :: s ++ [q']) = c :: s) /\
  (forall c c' : N,
     is_quote c = false -> is_quote c' = false ->
     strip_quotes (c :: s ++ [c']) = c :: s ++ [c']) /\
  length s <= length (strip_quotes s) + 2.
Proof.
  intros Hq Hq'.
  pose proof (quote_not_space q Hq) as Hs.
  pose proof (quote_not_space q' Hq') as Hs'.
  unfold env_value. rewrite (trim_between_nonspace q s q' Hs Hs').
  split; [|split; [reflexivity|split; [|split]]].
  - simpl. rewrite Hq. apply strip_last_quote_snoc, Hq'.
  - intros c Hc. unfold strip_quotes. rewrite Hq, Hc. split.
    + apply strip_last_quote_keeps, Hc.
    + change (c :: s ++ [q']) with ((c :: s) ++ [q']).
      apply strip_last_quote_snoc, Hq'.
  - intros c c' Hc Hc'. unfold strip_quotes. rewrite Hc.
    change (c :: s ++ [c']) with ((c :: s) ++ [c']).
    apply strip_last_quote_keeps, Hc'.
  - unfold strip_quotes. destruct s as [|c r]; [simpl; lia|].
    destruct (is_quote c).
    + pose proof (strip_last_quote_length r). simpl. lia.
    + pose proof (strip_last_quote_length (c :: r)). lia.
Qed.

Lemma X12_witness :
  is_quote code_sq = true /\ is_quote code_dq = true /\
  env_value Alt (code_sq :: lit "us-east-1" ++ [code_dq]) = lit "us-east-1".
Proof.
  split; [reflexivity|]. split; [reflexivity|].
  exact (proj1 (X12_quotes_around_a_value (lit "us-east-1") code_sq code_dq
                  eq_refl eq_refl)).
Defined.

(** ** The arguments the flags are removed from *)

Lemma passthrough_no_flags l :
  lit "--install" ∉ l -> lit "-i" ∉ l -> passthrough l = l.
Proof.
  induction l as [|arg rest IH]; [reflexivity|]. simpl.
  intros H1 H2. apply not_elem_of_cons in H1 as [H1 H1'].
  apply not_elem_of_cons in H2 as [H2 H2'].
  rewrite !decide_False by congruence. rewrite IH by assumption.
  reflexivity.
Qed.

Lemma passthrough_length l : length (passthrough l) <= length l.
Proof.
  induction l as [|arg rest IH]; simpl; [lia|].
  repeat destruct (decide _); simpl; lia.
Qed.

Lemma passthrough_shorter l x :
  x ∈ l -> x = lit "--install" \/ x = lit "-i" ->
  length (passthrough l) < length l.
Proof.
  induction l as [|arg rest IH]; intros Hin Hx; [inversion Hin|].
  pose proof (passthrough_length rest) as Hlen. simpl.
  apply elem_of_cons in Hin as [-> | Hin].
  - destruct Hx as [-> | ->];
      repeat destruct (decide _); simpl; try lia; contradiction.
  - specialize (IH Hin Hx). repeat destruct (decide _); simpl; lia.
Qed.

(** X13: the arguments [main] passes on, [filteredArgs].  They contain
    neither --install nor -i and are a subsequence of the command-line
    arguments; filtering them again changes nothing; they are all of the
    arguments exactly when no installation was requested, and fewer
    otherwise. *)
Theorem X13_filteredArgs (w : world) :
  (lit "--install" ∉ filteredArgs w) /\ (lit "-i" ∉ filteredArgs w) /\
  sublist (filteredArgs w) (cli_args w) /\
  passthrough (filteredArgs w) = filteredArgs w /\
  (shouldInstall w = false -> filteredArgs w = cli_args w) /\
  (shouldInstall w = true ->
   length (filteredArgs w) < length (cli_args w)).
Proof.
  unfold filteredArgs. rewrite filter_passthrough.
  assert (H1 : lit "--install" ∉ passthrough (cli_args w))
    by (rewrite passthrough_elem_of; tauto).
  assert (H2 : lit "-i" ∉ passthrough (cli_args w))
    by (rewrite passthrough_elem_of; tauto).
  split; [exact H1|]. split; [exact H2|].
  split; [apply passthrough_sublist|].
  split; [apply passthrough_no_flags; assumption|].
  unfold shouldInstall, includes. split.
  - intros Hno. apply orb_false_iff in Hno as [Ha Hb].
    apply bool_decide_eq_false_1 in Ha, Hb.
    apply passthrough_no_flags; assumption.
  - intros Hyes. apply orb_true_iff in Hyes as [Ha | Hb].
    + apply bool_decide_eq_true_1 in Ha.
      apply (passthrough_shorter _ _ Ha). left. reflexivity.
    + apply bool_decide_eq_true_1 in Hb.
      apply (passthrough_shorter _ _ Hb). right. reflexivity.
Qed.

Lemma X13_witness :
  let w := posix_world [lit "-i"; lit "--verbose"; lit "-i"] [] [] all_fine []
  in
  shouldInstall w = true /\ filteredArgs w = [lit "--verbose"] /\
  length (filteredArgs w) < length (cli_args w).
Proof.
  intros w. split; [reflexivity|]. split; [reflexivity|].
  destruct (X13_filteredArgs w) as (_ & _ & _ & _ & _ & Hlt).
  exact (Hlt eq_refl).
Defined.

(** ** One child at a time *)










(** ** What the signal listeners never do *)

Lemma forwarded_signals_other h v sigs :
  h <> server -> forwarded h (flat_map (signal_events v) sigs) = [].
Proof.
  intros Hh. induction sigs as [|s sigs IH]; [reflexivity|].
  destruct v; cbn; rewrite !forwarded_cons, IH;
    destruct h; try reflexivity; contradiction.
Qed.

(** X15: signals outside the life of the server.  The launcher sends
    signals to no child but the server, and it handles a signal only in a
    run in which the server child was spawned and ran: before that, and when
    the server cannot be started, no listener is called. *)
Theorem X15_signals_only_for_the_server (w : world) (v : variant) :
  (forall h, h <> server -> forwarded h (trace (launcher w v)) = []) /\
  (received (trace (launcher w v)) <> [] ->
   exists c o code,
     In (Spawn server c o) (trace (launcher w v)) /\
     child w server c o = Closed code).
Proof.
  pose proof (checkPython_footprint w) as (_ & _ & _ & Hrecv & Hfwd & _).
  destruct (checkPython w) as [tpy r] eqn:E. simpl in Hrecv, Hfwd.
  split.
  - intros h Hh. specialize (Hfwd h).
    destruct v; run; observe;
      rewrite ?Hfwd, ?(forwarded_signals_other h _ _ Hh);
      destruct h; try reflexivity; contradiction.
  - destruct v; run; observe; rewrite ?Hrecv, ?app_nil_r; simpl;
      intros Hne; try (destruct (Hne eq_refl));
      (eexists; eexists; eexists; split; [find_event | eassumption]).
Qed.

Lemma X15_witness :
  let w := posix_world [] [server_py] [] all_fine [SIGINT] in
  received (trace (launcher w Bin)) <> [] /\
  exists c o code,
    In (Spawn server c o) (trace (launcher w Bin)) /\
    child w server c o = Closed code.
Proof.
  intros w.
  assert (H : received (trace (launcher w Bin)) <> []) by discriminate.
  split; [exact H|].
  exact (proj2 (X15_signals_only_for_the_server w Bin) H).
Defined.

(** ** Failures of the entry point and of the server *)

(** X16: a server that closes with a code other than 0, or that cannot be
    started, fails the run: the launcher exits with status 1 and the last
    thing it writes is the error of the server. *)
Theorem X16_server_failure_ends_run
    (w : world) (v : variant) (c : command) (o : spawn_options) :
  In (Spawn server c o) (trace (launcher w v)) ->
  failed_query (child w server c o) ->
  result (launcher w v) = Exit 1 /\
  last (trace (launcher w v))
  = Some (Write (log_stream v) (ErrorLine (server_error (child w server c o)))).
Proof.
  intros Hin Hfail. apply in_spawned in Hin. revert Hin.
  pose proof (checkPython_footprint w) as (_ & Hsrv & _).
  destruct (checkPython w) as [tpy r] eqn:E. simpl in Hsrv.
  destruct v; run; observe; rewrite ?Hsrv; members;
    repeat match goal with
           | H : child ?w server ?c ?o = _, H' : child ?w server ?c ?o = _ |- _ =>
               rewrite H in H'; inversion H'; subst; clear H'
           end;
    simpl in Hfail; try congruence;
    (split; [reflexivity|]);
    repeat (rewrite ?last_cons, ?last_app; simpl); reflexivity.
Qed.

Lemma X16_witness :
  let w := plain_world (fun h => match h with
                                 | server => Closed (Some 3%Z)
                                 | _ => Closed (Some 0%Z)
                                 end) in
  let c := Command (lit "python3") [server_py] in
  let o := Options pipes (Some (server_env w Bin ∅)) in
  In (Spawn server c o) (trace (launcher w Bin)) /\
  failed_query (child w server c o) /\
  result (launcher w Bin) = Exit 1.
Proof.
  intros w c o.
  assert (Hin : In (Spawn server c o) (trace (launcher w Bin)))
    by (vm_compute; tauto).
  assert (Hfail : failed_query (child w server c o)) by reflexivity.
  split; [exact Hin|]. split; [exact Hfail|].
  exact (proj1 (X16_server_failure_ends_run w Bin c o Hin Hfail)).
Defined.

(** X17: without server.py nothing is started.  When the entry point is
    missing and no help flag is given, the launcher spawns no child at all,
    not even the version query, reports the missing file and exits with
    status 1. *)
Theorem X17_missing_entry_point (w : world) (v : variant) :
  help_requested w = false ->
  existsSync w (serverPath w) = false ->
  started (trace (launcher w v)) = [] /\
  result (launcher w v) = Exit 1 /\
  last (trace (launcher w v))
  = Some (Write (log_stream v) (ErrorLine (ServerFileMissing (serverPath w)))).
Proof.
  intros Hhelp Hentry. destruct v; run; repeat split.
Qed.

Lemma X17_witness :
  let w := posix_world [] [] [] all_fine [] in
  help_requested w = false /\ existsSync w (serverPath w) = false /\
  started (trace (launcher w Alt)) = [].
Proof.
  intros w. split; [reflexivity|]. split; [reflexivity|].
  exact (proj1 (X17_missing_entry_point w Alt eq_refl eq_refl)).
Defined.

(** ** The two launchers side by side *)

Lemma commands_app t1 t2 : commands (t1 ++ t2) = commands t1 ++ commands t2.
Proof. apply omap_app. Qed.

Lemma commands_cons e t :
  commands (e :: t)
  = match e with Spawn h c _ => [(h, c)] | _ => [] end ++ commands t.
Proof. destruct e; reflexivity. Qed.

Lemma commands_signals v sigs : commands (flat_map (signal_events v) sigs) = [].
Proof. induction sigs as [|s sigs IH]; [reflexivity|]. destruct v; exact IH. Qed.

(** X18: where the two launchers agree.  Take a run in which what a child
    does depends on its handle and its command line only, not on the stdio
    and environment it is given.  When no argument other than --install and
    -i is given and the .env file, if there is one, can be read, the two
    launchers start the same children with the same command lines in the
    same order, settle the same way and end with the same status; they
    differ in what they log, in stdio and in the environment of the
    server. *)
Theorem X18_launchers_agree (w : world) :
  (forall h c o o', child w h c o = child w h c o') ->
  filteredArgs w = [] ->
  (forall msg, existsSync w (envPath w) = true ->
               readFileSync w (envPath w) <> inr msg) ->
  commands (trace (launcher w Bin)) = commands (trace (launcher w Alt)) /\
  result (launcher w Bin) = result (launcher w Alt).
Proof.
  unfold envPath. intros Hind Hargs Hread.
  destruct (checkPython w) as [tpy r] eqn:E.
  unfold_script. rewrite Hargs. reduce.
  repeat (repeat match goal with
                 | |- context [child w ?h ?c ?o] =>
                     lazymatch o with
                     | Options pipes None => fail
                     | _ => rewrite (Hind h c o (Options pipes None))
                     end
                 end;
          world_case; reduce).
  all: try (exfalso; exact (Hread _ eq_refl eq_refl)).
  all: split; try reflexivity.
  all: repeat (progress (rewrite ?commands_app, ?commands_cons,
                           ?commands_signals; reduce)).
  all: reflexivity.
Qed.

Lemma X18_witness :
  let w := posix_world [lit "--install"] [server_py; requirements_txt] []
             all_fine [SIGINT] in
  filteredArgs w = [] /\
  commands (trace (launcher w Bin)) = commands (trace (launcher w Alt)).
Proof.
  intros w. split; [reflexivity|].
  refine (proj1 (X18_launchers_agree w (fun _ _ _ _ => eq_refl) eq_refl _)).
  intros msg Hex. discriminate Hex.
Defined.
